(** * Blitzortung data update coordinator

    A shallow embedding of [BlitzortungDataUpdateCoordinator]
    (blitzortung/__init__.py) and the properties of its polling loop, its
    retry loop, its watermark and its polar-coordinate computation.

    Python [float]s are IEEE 754 binary64 numbers and are modelled by
    [spec_float] with [prec = 53] and [emax = 1024]; Python [int]s are
    unbounded and are modelled by [Z].  An exception is a value: every
    fallible step returns a [result].  What the event loop and the network
    do during a poll (the reply to each request, whether a sleep runs to its
    end, the lines of the response) is an argument of the poll, so that a
    statement about every [network] is a statement about every run. *)

From Stdlib Require Import ZArith List Bool Lia String Sorted.
From Stdlib Require Import Floats.SpecFloat.
From Equations Require Import Equations.
Import ListNotations.

Local Open Scope Z_scope.

(** ** Python floats *)

Module Float.

Definition prec : Z := 53.
Definition emax : Z := 1024.

Definition float : Type := spec_float.

Definition mul : float -> float -> float := SFmul prec emax.
Definition add : float -> float -> float := SFadd prec emax.
Definition sub : float -> float -> float := SFsub prec emax.
Definition div : float -> float -> float := SFdiv prec emax.
Definition sqrt : float -> float := SFsqrt prec emax.

(** [x <= y] and [x > y]: both are [False] as soon as one side is NaN. *)
Definition le (x y : float) : bool := SFleb x y.
Definition gt (x y : float) : bool := SFltb y x.

(** An int literal of the source that meets a float in an arithmetic
    operation is converted to the nearest float. *)
Definition of_int (n : Z) : float := binary_normalize prec emax n 0 false.

Definition zero : float := S754_zero false.
Definition one : float := of_int 1.

(** [math.pi], 0x1.921fb54442d18p+1. *)
Definition pi : float := S754_finite false 7074237752028440 (-51).

(** The float nearest to pi/2, 0x1.921fb54442d18p+0. *)
Definition half_pi : float := S754_finite false 7074237752028440 (-52).

(** [0.1], 0x1.999999999999ap-4. *)
Definition tenth : float := S754_finite false 7205759403792794 (-56).

(** [111.2], 0x1.bcccccccccccdp+6. *)
Definition f111_2 : float := S754_finite false 7825004352556237 (-46).

Definition is_finite (x : float) : bool :=
  match x with
  | S754_zero _ | S754_finite _ _ _ => true
  | S754_infinity _ | S754_nan => false
  end.

(** The integer nearest to [m * 2^e], ties going to the even one. *)
Definition nearest_even (m : positive) (e : Z) : Z :=
  match e with
  | Zneg p =>
      let d := Z.pow_pos 2 p in
      let q := Z.pos m / d in
      match (2 * (Z.pos m mod d)) ?= d with
      | Lt => q
      | Gt => q + 1
      | Eq => if Z.even q then q else q + 1
      end
  | _ => Z.pos m * 2 ^ e
  end.

End Float.

Import Float.

(** ** Exceptions *)

(** Why a pending [await] was abandoned: the request timeout of
    [async_timeout.timeout] expired, or the caller cancelled the task.  Both
    surface inside the coroutine as [asyncio.CancelledError]. *)
Inductive interrupt : Type :=
| TimedOut
| Cancelled.

Inductive exn : Type :=
| ClientError                       (* aiohttp.ClientError, raised by [get] or on a non-200 status *)
| CancelledError (why : interrupt)  (* a BaseException, not an Exception *)
| TimeoutError                      (* asyncio.TimeoutError *)
| UpdateFailed
| StreamError                       (* [readline] raised *)
| JSONDecodeError
| KeyError
| ValueError
| OverflowError
| TypeError
| Other (name : string)             (* any other subclass of Exception *).

(** [except Exception] catches everything but [CancelledError]. *)
Definition is_Exception (e : exn) : bool :=
  match e with
  | CancelledError _ => false
  | _ => true
  end.

Inductive result (A : Type) : Type :=
| Ok (a : A)
| Raise (e : exn).

Arguments Ok {A} a.
Arguments Raise {A} e.

Definition bind {A B : Type} (c : result A) (k : A -> result B) : result B :=
  match c with
  | Ok a => k a
  | Raise e => Raise e
  end.

Notation "x <- c ;; k" := (bind c (fun x => k))
  (at level 61, c at next level, right associativity).

(** [d[key]] on a dict that may lack the key. *)
Definition getitem {A : Type} (v : option A) : result A :=
  match v with
  | Some a => Ok a
  | None => Raise KeyError
  end.

(** ** The [math] module and [round] of CPython *)

Module Py.

Definition is_nan (x : float) : bool :=
  match x with S754_nan => true | _ => false end.

Definition is_inf (x : float) : bool :=
  match x with S754_infinity _ => true | _ => false end.

Definition signbit (x : float) : bool :=
  match x with
  | S754_zero s | S754_infinity s | S754_finite s _ _ => s
  | S754_nan => false
  end.

Definition copysign (x y : float) : float :=
  if Bool.eqb (signbit x) (signbit y) then x else SFopp x.

(** [math_1] of mathmodule.c with [can_overflow = 0]: the wrapper around
    one-argument libm functions such as [cos] and [sqrt]. *)
Definition math_1 (func : float -> float) (x : float) : result float :=
  let r := func x in
  if is_nan r && negb (is_nan x) then Raise ValueError
  else if is_inf r && is_finite x then Raise ValueError
  else Ok r.

(** [m_atan2] of mathmodule.c: the special cases are decided before libm's
    [atan2] is called. *)
Definition m_atan2 (libm_atan2 : float -> float -> float) (y x : float) : float :=
  if is_nan x || is_nan y then S754_nan
  else if is_inf y then
    if is_inf x then
      if negb (signbit x) then copysign (mul (div one (of_int 4)) pi) y
      else copysign (mul (div (of_int 3) (of_int 4)) pi) y
    else copysign (mul (div one (of_int 2)) pi) y
  else if is_inf x || SFeqb y zero then
    if negb (signbit x) then copysign zero y
    else copysign pi y
  else libm_atan2 y x.

(** [math_2] of mathmodule.c: the wrapper around [m_atan2]. *)
Definition math_2 (func : float -> float -> float) (x y : float) : result float :=
  let r := func x y in
  if is_nan r && negb (is_nan x) && negb (is_nan y) then Raise ValueError
  else if is_inf r && is_finite x && is_finite y then Raise OverflowError
  else Ok r.

(** [round(x)]: the nearest int, ties to even; NaN and the infinities have
    no int. *)
Definition round (x : float) : result Z :=
  match x with
  | S754_zero _ => Ok 0
  | S754_finite s m e => Ok (cond_Zopp s (nearest_even m e))
  | S754_infinity _ => Raise OverflowError
  | S754_nan => Raise ValueError
  end.

(** [round(x, 1)]: the exact value of [x] is rounded to one decimal, ties to
    even, and the decimal is converted back to the nearest float. *)
Definition round1 (x : float) : float :=
  match x with
  | S754_finite s m e =>
      match nearest_even (10 * m) e with
      | Zpos n => div (S754_finite s n 0) (S754_finite false 10 0)
      | _ => S754_zero s
      end
  | _ => x
  end.

End Py.

(** ** Data *)

(** One record of the feed after [json.loads]: a dict with the keys ["time"]
    (int, nanoseconds), ["lat"], ["lon"] and whatever else the service sends.
    [compute_polar_coords] adds the keys [const.ATTR_LIGHTNING_DISTANCE] and
    [const.ATTR_LIGHTNING_AZIMUTH], which are taken to differ from each other
    and from the three keys read. *)
Record lightning : Type := {
  time : Z;
  lat : option float;
  lon : option float;
  distance : option float;
  azimuth : option Z;
  other : list (string * string)
}.

Definition set_polar (d : lightning) (dist : float) (az : Z) : lightning :=
  {| time := time d; lat := lat d; lon := lon d;
     distance := Some dist; azimuth := Some az; other := other d |}.

(** The attributes of the coordinator that the methods read or write. *)
Record coordinator : Type := {
  latitude : float;
  longitude : float;
  radius : float;
  host_nr : Z;
  last_time : Z;
  data : option (list lightning)
}.

Definition set_host_nr (self : coordinator) (h : Z) : coordinator :=
  {| latitude := latitude self; longitude := longitude self; radius := radius self;
     host_nr := h; last_time := last_time self; data := data self |}.

Definition set_last_time (self : coordinator) (t : Z) : coordinator :=
  {| latitude := latitude self; longitude := longitude self; radius := radius self;
     host_nr := host_nr self; last_time := t; data := data self |}.

Definition set_data (self : coordinator) (d : list lightning) : coordinator :=
  {| latitude := latitude self; longitude := longitude self; radius := radius self;
     host_nr := host_nr self; last_time := last_time self; data := Some d |}.

(** [__init__]: [host_nr = 1], [last_time = 0]; [data] is [None] until the
    first refresh succeeds. *)
Definition init (latitude longitude radius : float) : coordinator :=
  {| latitude := latitude; longitude := longitude; radius := radius;
     host_nr := 1; last_time := 0; data := None |}.

(** What the code takes from outside this file: the C library's [cos] and
    [atan2], which [math.cos] and [math.atan2] call, and the constants of
    [const.py]; [INACTIVITY_RESET_SECONDS] is taken as the float it compares
    equal to. *)
Class Libm : Type := {
  libm_cos : float -> float;
  libm_atan2 : float -> float -> float
}.

Class Const : Type := {
  MAX_RETRIES : Z;
  INACTIVITY_RESET_SECONDS : float
}.

Section Coordinator.

Context {libm : Libm} {const : Const}.

Definition math_cos : float -> result float := Py.math_1 libm_cos.
Definition math_sqrt : float -> result float := Py.math_1 Float.sqrt.
Definition math_atan2 : float -> float -> result float :=
  Py.math_2 (Py.m_atan2 libm_atan2).

Definition compute_polar_coords (self : coordinator) (ev : lightning)
  : result lightning :=
  ev_lat <- getitem (lat ev) ;;
  let dy := div (mul (sub ev_lat (latitude self)) pi) (of_int 180) in
  ev_lon <- getitem (lon ev) ;;
  c <- math_cos (div (mul (latitude self) pi) (of_int 180)) ;;
  let dx := mul (div (mul (sub ev_lon (longitude self)) pi) (of_int 180)) c in
  s <- math_sqrt (add (mul dx dx) (mul dy dy)) ;;
  let distance := Py.round1 (mul s (of_int 6371)) in
  a <- math_atan2 dx dy ;;
  azimuth <- Py.round (div (mul a (of_int 180)) pi) ;;
  Ok (set_polar ev distance azimuth).

(** [latest_lightnings]: a generator; the list is what it yields, in
    order.  [self.data or ()] replaces [None] and the empty list by the
    empty tuple. *)
Definition data_or_empty (self : coordinator) : list lightning :=
  match data self with
  | None => []
  | Some [] => []
  | Some d => d
  end.

Definition latest_lightnings (self : coordinator) : list lightning :=
  rev (data_or_empty self).

(** *** The network during one poll *)

(** What one [await resp.content.readline()] followed by [json.loads],
    [data["time"]] and [t <= self.last_time] meets; the end of the list is
    the empty line at the end of the stream.  In a [Json] line the timestamp
    is an int and the coordinates, when present, are numbers, as the feed
    delivers them. *)
Inductive line : Type :=
| ReadFails                  (* [readline] raises *)
| Garbage                    (* [json.loads] raises *)
| NoTime                     (* the object has no ["time"] key *)
| Json (d : lightning)
| Mistyped                   (* JSON, but not an object, or its ["time"] is
                                not a number: [TypeError] *).

Record response : Type := {
  status : Z;
  content : list line
}.

Inductive reply : Type :=
| Replies (resp : response)
| Fails                         (* [get] raises [aiohttp.ClientError] *)
| Interrupted (why : interrupt) (* the await of [get] is abandoned *)
| Throws (e : exn)              (* [get] raises [e] *).

(** [get k] is what [http_client.get] does when it is called after [k]
    failed attempts of this poll; [sleep k] is what happens to
    [asyncio.sleep(2 ** k)]: [None] when it runs to its end. *)
Record network : Type := {
  get : Z -> reply;
  sleep : Z -> option interrupt
}.

Inductive effect : Type :=
| Get (data_host_nr : Z)
| Sleep (seconds : Z).

(** *** [fetch_data] *)

(** The body of the [try]. *)
Definition attempt (net : network) (try_nr : Z) : result response :=
  match get net try_nr with
  | Replies resp =>
      if negb (status resp =? 200) then Raise ClientError else Ok resp
  | Fails => Raise ClientError
  | Interrupted why => Raise (CancelledError why)
  | Throws e => Raise e
  end.

Record fetched : Type := {
  fetch_result : result response;
  fetch_host_nr : Z;
  fetch_effects : list effect
}.

(** The [while True] loop, on its variables [try_nr], [self.host_nr] and
    the effects performed so far. *)
Equations? fetch_loop (net : network) (try_nr host_nr : Z) (done : list effect)
  : fetched by wf (Z.to_nat (MAX_RETRIES - try_nr)) lt :=
  fetch_loop net try_nr host_nr done with attempt net try_nr := {
    | Ok resp => {| fetch_result := Ok resp; fetch_host_nr := host_nr;
                    fetch_effects := done ++ [Get (host_nr + 1)] |}
    | Raise e with is_Exception e := {
      | false => {| fetch_result := Raise e; fetch_host_nr := host_nr;
                    fetch_effects := done ++ [Get (host_nr + 1)] |}
      | true with Z_ge_lt_dec (try_nr + 1) MAX_RETRIES := {
        | left _ => {| fetch_result := Raise e;
                       fetch_host_nr := (host_nr + 1) mod 3;
                       fetch_effects := done ++ [Get (host_nr + 1)] |}
        | right _ with sleep net (try_nr + 1) := {
          | Some why =>
              {| fetch_result := Raise (CancelledError why);
                 fetch_host_nr := (host_nr + 1) mod 3;
                 fetch_effects :=
                   done ++ [Get (host_nr + 1); Sleep (2 ^ (try_nr + 1))] |}
          | None =>
              fetch_loop net (try_nr + 1) ((host_nr + 1) mod 3)
                (done ++ [Get (host_nr + 1); Sleep (2 ^ (try_nr + 1))]) } } } }.
Proof. lia. Qed.

Definition fetch_data (net : network) (self : coordinator) : fetched :=
  fetch_loop net 0 (host_nr self) [].

(** *** [_do_update] *)

(** Leaving [with async_timeout.timeout(...)]: the [CancelledError] that
    the expired timeout injected becomes [asyncio.TimeoutError]. *)
Definition timeout_exit {A : Type} (r : result A) : result A :=
  match r with
  | Raise (CancelledError TimedOut) => Raise TimeoutError
  | _ => r
  end.

(** [int / float] converts the int first, and refuses an int that has no
    finite float. *)
Definition int_to_float (n : Z) : result float :=
  let x := of_int n in
  if Py.is_inf x then Raise OverflowError else Ok x.

(** The [while True] loop over the lines, on its variables [last_time] and
    [latest]; [self] is not written inside the loop.  The arguments of the
    [debug] call are evaluated for every record that is kept: [t / 1e9]
    converts the timestamp to a float. *)
Fixpoint read_loop (self : coordinator) (lines : list line)
  (last_time' : Z) (latest : list lightning) : result (Z * list lightning) :=
  match lines with
  | [] => Ok (last_time', latest)
  | ReadFails :: _ => Raise StreamError
  | Garbage :: _ => Raise JSONDecodeError
  | NoTime :: _ => Raise KeyError
  | Mistyped :: _ => Raise TypeError
  | Json d :: rest =>
      let t := time d in
      if t <=? last_time self then Ok (last_time', latest)
      else
        let last_time' := Z.max t last_time' in
        d <- compute_polar_coords self d ;;
        dist <- getitem (distance d) ;;
        if Float.le dist (radius self)
        then
          _ <- int_to_float t ;;
          read_loop self rest last_time' (latest ++ [d])
        else read_loop self rest last_time' latest
  end.

Definition _do_update (net : network) (self : coordinator)
  : result (list lightning) * coordinator :=
  let initial := last_time self =? 0 in
  let f := fetch_data net self in
  let self := set_host_nr self (fetch_host_nr f) in
  match timeout_exit (fetch_result f) with
  | Raise e =>
      if is_Exception e
      then (Raise e, set_host_nr self ((host_nr self + 1) mod 3))
      else (Raise e, self)
  | Ok resp =>
      if negb (status resp =? 200) then (Raise UpdateFailed, self)
      else
        match read_loop self (content resp) (last_time self) [] with
        | Raise e => (Raise e, self)
        | Ok (last_time', latest) =>
            let self :=
              if last_time' >? last_time self
              then set_last_time self last_time' else self in
            (Ok (if initial then [] else latest), self)
        end
  end.

(** [DataUpdateCoordinator.async_refresh] of homeassistant, which owns
    [self.data]: it awaits the update method and stores what it returns;
    when the update method raises, [self.data] is left as it is. *)
Definition async_refresh (net : network) (self : coordinator)
  : result (list lightning) * coordinator :=
  let '(r, self) := _do_update net self in
  match r with
  | Ok d => (r, set_data self d)
  | Raise _ => (r, self)
  end.

(** A sequence of polls, one network behaviour per poll. *)
Fixpoint polls (nets : list network) (self : coordinator) : coordinator :=
  match nets with
  | [] => self
  | net :: nets => polls nets (snd (async_refresh net self))
  end.

(** What each poll of the sequence returned or raised. *)
Fixpoint history (nets : list network) (self : coordinator)
  : list (result (list lightning)) :=
  match nets with
  | [] => []
  | net :: nets =>
      fst (async_refresh net self) :: history nets (snd (async_refresh net self))
  end.

(** *** [is_inactive] *)

(** [now] is what [time.time()] returns. *)
Definition is_inactive (now : float) (self : coordinator) : result bool :=
  t <- int_to_float (last_time self) ;;
  let dt := sub now (div t (of_int 1000000000)) in
  Ok (Float.gt dt INACTIVITY_RESET_SECONDS).

End Coordinator.

(** ** Setting up and unloading a config entry *)

(** What is raised outside the methods of the coordinator: an exception of
    [exn], or the [ZeroDivisionError] of a float division in [__init__]. *)
Inductive raised : Type :=
| Exn (e : exn)
| ZeroDivisionError.

Inductive outcome (A : Type) : Type :=
| Returns (a : A)
| Raises (r : raised).

Arguments Returns {A} a.
Arguments Raises {A} r.

Definition lift {A : Type} (c : result A) : outcome A :=
  match c with
  | Ok a => Returns a
  | Raise e => Raises (Exn e)
  end.

Definition obind {A B : Type} (c : outcome A) (k : A -> outcome B) : outcome B :=
  match c with
  | Returns a => k a
  | Raises r => Raises r
  end.

Notation "x <~ c ;; k" := (obind c (fun x => k))
  (at level 61, c at next level, right associativity).

(** [x / y] on floats raises when [y] is zero. *)
Definition truediv (x y : float) : outcome float :=
  if SFeqb y zero then Raises ZeroDivisionError else Returns (div x y).

(** The four bounds that [__init__] puts into the query string. *)
Record bounding_box : Type := {
  north : float;
  south : float;
  east : float;
  west : float
}.

(** A config entry: its id and the three keys of [entry.data] that
    [async_setup_entry] reads. *)
Record config_entry : Type := {
  entry_id : string;
  conf_latitude : option float;
  conf_longitude : option float;
  conf_radius : option float
}.

(** [hass.data[DOMAIN]], a dict from entry ids to coordinators, by its
    lookup; [hass.data.get(DOMAIN)] is [None] before the first setup. *)
Definition registry : Type := string -> option coordinator.

Definition empty_registry : registry := fun _ => None.

Definition setitem (d : registry) (k : string) (v : coordinator) : registry :=
  fun k' => if String.eqb k' k then Some v else d k'.

Definition delitem (d : registry) (k : string) : registry :=
  fun k' => if String.eqb k' k then None else d k'.

Section Setup.

Context {libm : Libm} {const : Const}.

(** [__init__]: the attributes, then the bounding box of the query.  The
    query string itself (the base URL, [urlencode], the event count) is not
    modelled. *)
Definition __init__ (latitude longitude radius : float)
  : outcome (coordinator * bounding_box) :=
  let self := init latitude longitude radius in
  let lat_delta := div (mul radius (of_int 360)) (of_int 40000) in
  c <~ lift (math_cos (div (mul latitude pi) (of_int 180))) ;;
  lon_delta <~ truediv lat_delta c ;;
  let west := sub longitude lon_delta in
  let east := add longitude lon_delta in
  let north := add latitude lat_delta in
  let south := sub latitude lat_delta in
  Returns (self, {| north := north; south := south; east := east; west := west |}).

(** [async_setup]. *)
Definition async_setup : bool := true.

(** [async_setup_entry].  The coordinator is stored in [hass.data] before
    it is refreshed, and it is the stored object that the refresh updates.
    [async_refresh] of homeassistant logs an [Exception] of the update
    method and returns; a [CancelledError] passes through it.  The task that
    sets up the platforms is only scheduled. *)
Definition async_setup_entry (net : network) (data : option registry)
  (entry : config_entry) : outcome bool * option registry :=
  let reg := match data with Some reg => reg | None => empty_registry end in
  match
    (latitude <~ lift (getitem (conf_latitude entry)) ;;
     longitude <~ lift (getitem (conf_longitude entry)) ;;
     radius <~ lift (getitem (conf_radius entry)) ;;
     __init__ latitude longitude radius)
  with
  | Raises r => (Raises r, Some reg)
  | Returns (coordinator, _) =>
      let '(r, coordinator) := async_refresh net coordinator in
      let reg := setitem reg (entry_id entry) coordinator in
      match r with
      | Ok _ => (Returns true, Some reg)
      | Raise e =>
          if is_Exception e then (Returns true, Some reg)
          else (Raises (Exn e), Some reg)
      end
  end.

(** [async_unload_entry].  [unloaded] is what the gathered
    [async_forward_entry_unload] calls, one per platform, give. *)
Definition async_unload_entry (unloaded : result (list bool))
  (data : option registry) (entry : config_entry)
  : result bool * option registry :=
  match unloaded with
  | Raise e => (Raise e, data)
  | Ok oks =>
      let unload_ok := forallb (fun ok => ok) oks in
      if negb unload_ok then (Ok false, data)
      else
        match data with
        | None => (Raise KeyError, data)
        | Some reg =>
            match reg (entry_id entry) with
            | None => (Raise KeyError, data)
            | Some _ => (Ok true, Some (delitem reg (entry_id entry)))
            end
        end
  end.

End Setup.

(** ** Closed data for the examples *)

Module Ex.

(** Stand-ins for libm at the arguments where Annex F of the C standard
    fixes the result: [cos(+-0) = 1] and [atan2(y, +-0) = +-pi/2] for
    [y <> 0].  The examples below place the observer on the equator and the
    strikes on its meridian or on the equator, so libm is called nowhere
    else. *)
Definition cos (x : float) : float :=
  match x with
  | S754_zero _ => one
  | _ => S754_nan
  end.

Definition atan2 (y x : float) : float :=
  match x with
  | S754_zero _ => Py.copysign half_pi y
  | _ => S754_nan
  end.

Definition strike (t : Z) (la lo : float) : lightning :=
  {| time := t; lat := Some la; lon := Some lo;
     distance := None; azimuth := None; other := [] |}.

(** A strike 0.1 degree north of the observer, 11.1 km away, and one a full
    degree north, 111.2 km away. *)
Definition near (t : Z) : lightning := strike t tenth zero.
Definition far (t : Z) : lightning := strike t one zero.

(** [11.1], 0x1.6333333333333p+3. *)
Definition f11_1 : float := S754_finite false 6248744482976563 (-49).

(** [near t] as [compute_polar_coords] leaves it. *)
Definition near' (t : Z) : lightning := set_polar (near t) f11_1 0.

(** An observer at (0, 0) with a radius of 50 km. *)
Definition observer (host last : Z) : coordinator :=
  {| latitude := zero; longitude := zero; radius := of_int 50;
     host_nr := host; last_time := last; data := None |}.

Definition ok (lines : list line) : response :=
  {| status := 200; content := lines |}.

(** A network whose first request succeeds with the given lines. *)
Definition serves (lines : list line) : network :=
  {| get := fun _ => Replies (ok lines); sleep := fun _ => None |}.

(** A network where every request fails. *)
Definition down : network :=
  {| get := fun _ => Fails; sleep := fun _ => None |}.

(** The timestamps 5, 10, 15 in ascending order and newest first. *)
Definition ascending : list line := [Json (near 5); Json (near 10); Json (near 15)].
Definition descending : list line := [Json (near 15); Json (near 10); Json (near 5)].

(** A feed, newest first, whose newest strike is outside the radius. *)
Definition feed : list line :=
  [Json (far 20); Json (near 15); Json (near 10); Json (near 5)].

Definition libm : Libm := {| libm_cos := cos; libm_atan2 := atan2 |}.

(** Three attempts per poll; inactive after an hour. *)
Definition const : Const :=
  {| MAX_RETRIES := 3; INACTIVITY_RESET_SECONDS := of_int 3600 |}.

Definition polar_coords : coordinator -> lightning -> result lightning :=
  @compute_polar_coords libm.

Definition do_update : network -> coordinator -> result (list lightning) * coordinator :=
  @_do_update libm const.

(** A network whose first request fails and whose second succeeds. *)
Definition flaky (lines : list line) : network :=
  {| get := fun k => if k =? 0 then Fails else Replies (ok lines);
     sleep := fun _ => None |}.

(** Networks whose first request is abandoned. *)
Definition times_out : network :=
  {| get := fun _ => Interrupted TimedOut; sleep := fun _ => None |}.

Definition cancelled : network :=
  {| get := fun _ => Interrupted Cancelled; sleep := fun _ => None |}.

(** A feed with a line that is not JSON after its newest record. *)
Definition torn : list line := [Json (near 15); Garbage; Json (near 10)].

(** A strike without a ["lon"] key. *)
Definition no_lon : lightning :=
  {| time := 15; lat := Some tenth; lon := None;
     distance := None; azimuth := None; other := [] |}.

(** The config entry of the observer. *)
Definition entry : config_entry :=
  {| entry_id := "home"; conf_latitude := Some zero;
     conf_longitude := Some zero; conf_radius := Some (of_int 50) |}.

Definition setup_entry
  : network -> option registry -> config_entry -> outcome bool * option registry :=
  @async_setup_entry libm const.

End Ex.

(** ** Vocabulary of the statements *)

(** [d] carries a distance, and it is at most the radius of [self]. *)
Definition in_radius (self : coordinator) (d : lightning) : bool :=
  match distance d with
  | Some dist => Float.le dist (radius self)
  | None => false
  end.

(** [d] passes the gate [t <= self.last_time] of the loop. *)
Definition newer (self : coordinator) (d : lightning) : Prop :=
  last_time self < time d.

(** Where the loop stops reading: at the end of the stream, or on a record
    that is not newer than the watermark. *)
Definition stops_at (self : coordinator) (rest : list line) : Prop :=
  rest = [] \/
  exists d rest', rest = Json d :: rest' /\ time d <= last_time self.

(** The largest of [t0] and the timestamps of [ds]. *)
Definition max_time (ds : list lightning) (t0 : Z) : Z :=
  fold_left (fun acc d => Z.max (time d) acc) ds t0.

(** The value returned by the most recent poll that did not raise. *)
Fixpoint last_ok {A : Type} (rs : list (result A)) : option A :=
  match rs with
  | [] => None
  | r :: rs =>
      match last_ok rs with
      | Some a => Some a
      | None => match r with Ok a => Some a | Raise _ => None end
      end
  end.

(** [get] failed in one of the two ways that [fetch_data] retries: it raised
    an [Exception], or the response has a status other than 200. *)
Definition failing (r : reply) : Prop :=
  r = Fails \/ exists resp, r = Replies resp /\ status resp <> 200.

(** One advance of the host rotation. *)
Definition rotate (h : Z) : Z := (h + 1) mod 3.

(** The number of requests among the effects. *)
Definition requests (es : list effect) : Z :=
  Z.of_nat (List.length (filter (fun e => match e with Get _ => true | Sleep _ => false end) es)).

(** [ev'] is [ev] with its distance key holding [dist] and its azimuth key
    holding [az], every other key as in [ev]. *)
Definition annotated_with (ev ev' : lightning) (dist : float) (az : Z) : Prop :=
  distance ev' = Some dist /\ azimuth ev' = Some az /\
  time ev' = time ev /\ lat ev' = lat ev /\ lon ev' = lon ev /\
  other ev' = other ev.

(** Events in ascending and in descending order of their timestamps. *)
Definition oldest_first (ds : list lightning) : Prop :=
  StronglySorted (fun a b => time a <= time b) ds.

Definition most_recent_first (ds : list lightning) : Prop :=
  StronglySorted (fun a b => time b <= time a) ds.

(** The records of a response, in the order of its lines. *)
Definition records (lines : list line) : list lightning :=
  flat_map (fun l => match l with Json d => [d] | _ => [] end) lines.

(** A request that goes to one of the three data hosts. *)
Definition to_pool (e : effect) : Prop :=
  match e with
  | Get h => 1 <= h <= 3
  | Sleep _ => True
  end.

(** The seconds spent sleeping among the effects. *)
Definition slept (es : list effect) : Z :=
  fold_right (fun e acc => match e with Sleep n => n + acc | Get _ => acc end) 0 es.

(** A line on which the loop raises before it looks at a timestamp. *)
Definition broken (l : line) : Prop :=
  l = ReadFails \/ l = Garbage \/ l = NoTime \/ l = Mistyped.

(** [d'] is [d] with the distance and azimuth keys set, and nothing else
    changed. *)
Definition annotated (d d' : lightning) : Prop :=
  exists dist az, d' = set_polar d dist az.

(** ** Properties *)

Section Properties.

Context {libm : Libm} {const : Const}.

(** *** The monad *)

Lemma bind_Ok {A B : Type} (c : result A) (k : A -> result B) (b : B) :
  (x <- c ;; k x) = Ok b -> exists a, c = Ok a /\ k a = Ok b.
Proof.
  destruct c as [a | e]; simpl; intros H.
  - exists a. split; [reflexivity | exact H].
  - discriminate H.
Qed.

(** [H : (x <- c ;; k x) = Ok b] becomes [Hx : c = Ok x] and [H : k x = Ok b]. *)
Ltac bind_inv H x Hx :=
  apply bind_Ok in H; destruct H as (x & Hx & H).

(** *** The loop over the lines *)

(** One turn of the loop on a record that passes the gate. *)
Lemma read_loop_newer self d rest t latest :
  newer self d ->
  read_loop self (Json d :: rest) t latest =
  (d' <- compute_polar_coords self d ;;
   dist <- getitem (distance d') ;;
   if Float.le dist (radius self)
   then _ <- int_to_float (time d) ;;
        read_loop self rest (Z.max (time d) t) (latest ++ [d'])
   else read_loop self rest (Z.max (time d) t) latest).
Proof.
  unfold newer. intros H. simpl.
  destruct (Z.leb_spec (time d) (last_time self)); [lia | reflexivity].
Qed.

(** One turn of the loop on a record that does not pass the gate. *)
Lemma read_loop_stale self d rest t latest :
  time d <= last_time self ->
  read_loop self (Json d :: rest) t latest = Ok (t, latest).
Proof.
  intros H. simpl.
  destruct (Z.leb_spec (time d) (last_time self)); [reflexivity | lia].
Qed.

(** A pass of the loop that does not raise has read a run of newer records
    and stopped; the candidate watermark is the largest timestamp of the
    run, and what it collected are the records of the run that are in the
    radius, annotated, in order. *)
Lemma read_loop_Ok self lines : forall t latest t' res,
  read_loop self lines t latest = Ok (t', res) ->
  exists pre rest pre',
    lines = map Json pre ++ rest /\
    Forall (newer self) pre /\
    stops_at self rest /\
    t' = max_time pre t /\
    Forall2 (fun d d' => compute_polar_coords self d = Ok d') pre pre' /\
    res = latest ++ filter (in_radius self) pre'.
Proof.
  induction lines as [| [ | | | d | ] rest IH]; intros t latest t' res H;
    try discriminate H.
  - injection H as <- <-.
    exists [], [], []. simpl. rewrite app_nil_r.
    split; [reflexivity |]. split; [constructor |].
    split; [left; reflexivity |]. split; [reflexivity |].
    split; [constructor | reflexivity].
  - destruct (Z.le_gt_cases (time d) (last_time self)) as [Hs | Hn].
    + rewrite read_loop_stale in H by exact Hs. injection H as <- <-.
      exists [], (Json d :: rest), []. simpl. rewrite app_nil_r.
      split; [reflexivity |]. split; [constructor |].
      split; [right; eauto |]. split; [reflexivity |].
      split; [constructor | reflexivity].
    + rewrite read_loop_newer in H by exact Hn.
      bind_inv H d' Hd'. bind_inv H dist Hdist.
      assert (Hin : in_radius self d' = Float.le dist (radius self)).
      { unfold in_radius. destruct (distance d'); [| discriminate Hdist].
        injection Hdist as ->. reflexivity. }
      destruct (Float.le dist (radius self)) eqn:Hle;
        [apply bind_Ok in H; destruct H as (x & _ & H) |];
        apply IH in H;
        destruct H as (pre & rest' & pre' & -> & Hnew & Hstop & -> & Hc & ->);
        exists (d :: pre), rest', (d' :: pre'); simpl; rewrite Hin;
        (split; [reflexivity |]); (split; [constructor; assumption |]);
        (split; [assumption |]); (split; [reflexivity |]);
        (split; [constructor; assumption |]).
      * rewrite <- app_assoc. reflexivity.
      * reflexivity.
Qed.

(** The loop reads [self] but not its [host_nr]. *)
Lemma read_loop_host self h lines : forall t latest,
  read_loop (set_host_nr self h) lines t latest = read_loop self lines t latest.
Proof.
  induction lines as [| [ | | | d | ] rest IH]; intros t latest; simpl;
    try reflexivity.
  destruct (time d <=? last_time self); [reflexivity |].
  change (compute_polar_coords (set_host_nr self h) d)
    with (compute_polar_coords self d).
  destruct (compute_polar_coords self d) as [d' | e]; simpl; [| reflexivity].
  destruct (getitem (distance d')) as [dist | e]; simpl; [| reflexivity].
  destruct (Float.le dist (radius self)); [| apply IH].
  destruct (int_to_float (time d)) as [x | e]; simpl; [apply IH | reflexivity].
Qed.

(** The candidate watermark never falls below its initial value. *)
Lemma max_time_ge ds : forall t, t <= max_time ds t.
Proof.
  unfold max_time. induction ds as [| d ds IH]; intros t; simpl; [lia |].
  specialize (IH (Z.max (time d) t)). lia.
Qed.

Lemma max_time_In ds d : forall t, In d ds -> time d <= max_time ds t.
Proof.
  induction ds as [| d0 ds IH]; intros t Hin; [destruct Hin |].
  destruct Hin as [-> | Hin].
  - pose proof (max_time_ge ds (Z.max (time d) t)) as H.
    unfold max_time in *. simpl. lia.
  - unfold max_time in *. simpl. apply IH. exact Hin.
Qed.

(** *** [_do_update] *)

Lemma timeout_exit_Ok {A : Type} (r : result A) (a : A) :
  timeout_exit r = Ok a -> r = Ok a.
Proof.
  destruct r as [a' | [ | [ | ] | | | | | | | | | name]]; simpl; intros H;
    try discriminate H; exact H.
Qed.

(** A poll that returns went through a 200 response and a full pass of the
    loop. *)
Lemma _do_update_Ok net self res self' :
  _do_update net self = (Ok res, self') ->
  exists resp t' latest,
    fetch_result (fetch_data net self) = Ok resp /\
    status resp = 200 /\
    read_loop self (content resp) (last_time self) [] = Ok (t', latest) /\
    res = (if last_time self =? 0 then [] else latest) /\
    last_time self' = (if t' >? last_time self then t' else last_time self) /\
    radius self' = radius self.
Proof.
  unfold _do_update. intros H.
  destruct (timeout_exit (fetch_result (fetch_data net self)))
    as [resp | e] eqn:Hf.
  - apply timeout_exit_Ok in Hf.
    destruct (status resp =? 200) eqn:Hs; simpl in H; [| discriminate H].
    rewrite read_loop_host in H. simpl in H.
    destruct (read_loop self (content resp) (last_time self) [])
      as [[t' latest] | e] eqn:Hr; [| discriminate H].
    injection H as <- <-.
    exists resp, t', latest.
    split; [exact Hf |]. split; [apply Z.eqb_eq; exact Hs |].
    split; [exact Hr |]. split; [reflexivity |].
    destruct (t' >? last_time self); split; reflexivity.
  - destruct (is_Exception e); discriminate H.
Qed.

(** A poll that raises has not written [last_time]. *)
Lemma _do_update_Raise net self e self' :
  _do_update net self = (Raise e, self') ->
  last_time self' = last_time self.
Proof.
  unfold _do_update. intros H.
  destruct (timeout_exit (fetch_result (fetch_data net self))) as [resp | e0].
  - destruct (negb (status resp =? 200)).
    + injection H as _ <-. reflexivity.
    + destruct (read_loop _ (content resp) _ []) as [[t' latest] | e1].
      * discriminate H.
      * injection H as _ <-. reflexivity.
  - destruct (is_Exception e0); injection H as _ <-; reflexivity.
Qed.

Lemma _do_update_last_time net self :
  match fst (_do_update net self) with
  | Ok _ => last_time self <= last_time (snd (_do_update net self))
  | Raise _ => last_time (snd (_do_update net self)) = last_time self
  end.
Proof.
  destruct (_do_update net self) as [[res | e] self'] eqn:H; simpl.
  - apply _do_update_Ok in H.
    destruct H as (resp & t' & latest & _ & _ & _ & _ & -> & _).
    destruct (Z.gtb_spec t' (last_time self)); lia.
  - apply _do_update_Raise in H. exact H.
Qed.

Lemma async_refresh_last_time net self :
  last_time (snd (async_refresh net self)) =
  last_time (snd (_do_update net self)).
Proof.
  unfold async_refresh.
  destruct (_do_update net self) as [[res | e] self']; reflexivity.
Qed.

(** C2. The stored watermark never decreases: a poll that returns leaves
    [last_time] as it was or raises it, a poll that raises (in the fetch, on
    the timeout, after the last retry, or on a line of the stream) leaves it
    exactly as it was, and so [last_time] is non-decreasing along every
    sequence of polls. *)
Theorem watermark_monotone :
  (forall net self,
      match fst (_do_update net self) with
      | Ok _ => last_time self <= last_time (snd (_do_update net self))
      | Raise _ => last_time (snd (_do_update net self)) = last_time self
      end) /\
  (forall nets self, last_time self <= last_time (polls nets self)).
Proof.
  split; [exact _do_update_last_time |].
  induction nets as [| net nets IH]; intros self; simpl; [lia |].
  specialize (IH (snd (async_refresh net self))).
  rewrite async_refresh_last_time in IH.
  pose proof (_do_update_last_time net self) as H.
  destruct (fst (_do_update net self)); lia.
Qed.

(** C4. Every event in the list that [_do_update] returns carries a
    distance, and that distance is less than or equal to the radius of the
    coordinator. *)
Theorem returned_in_radius net self res self' :
  _do_update net self = (Ok res, self') ->
  Forall (fun d => exists dist,
              distance d = Some dist /\ Float.le dist (radius self) = true) res.
Proof.
  intros H. apply _do_update_Ok in H.
  destruct H as (resp & t' & latest & _ & _ & Hr & -> & _).
  destruct (last_time self =? 0); [constructor |].
  apply read_loop_Ok in Hr.
  destruct Hr as (pre & rest & pre' & _ & _ & _ & _ & _ & ->). simpl.
  apply Forall_forall. intros d Hd. apply filter_In in Hd.
  destruct Hd as [_ Hd]. unfold in_radius in Hd.
  destruct (distance d) as [dist |]; [| discriminate Hd].
  exists dist. split; [reflexivity | exact Hd].
Qed.

(** C3. When the stored watermark is unset (zero) before the poll, a
    [_do_update] that returns returns the empty list whatever the loop
    collected in [latest], and it still commits the candidate watermark of
    the loop, the largest timestamp of the records read. *)
Theorem first_poll_returns_nothing net self res self' :
  last_time self = 0 ->
  _do_update net self = (Ok res, self') ->
  res = [] /\
  exists resp latest pre rest,
    fetch_result (fetch_data net self) = Ok resp /\
    read_loop self (content resp) 0 [] = Ok (last_time self', latest) /\
    content resp = map Json pre ++ rest /\
    Forall (newer self) pre /\ stops_at self rest /\
    last_time self' = max_time pre 0.
Proof.
  intros H0 H. apply _do_update_Ok in H.
  destruct H as (resp & t' & latest & Hf & _ & Hr & -> & Hl & _).
  rewrite H0 in *. split; [reflexivity |].
  pose proof Hr as Hd. apply read_loop_Ok in Hd.
  destruct Hd as (pre & rest & pre' & Hc & Hn & Hs & Ht & _ & _).
  assert (Hl' : last_time self' = t').
  { pose proof (max_time_ge pre 0) as Hge. rewrite <- Ht in Hge.
    rewrite Hl. destruct (Z.gtb_spec t' 0); lia. }
  exists resp, latest, pre, rest. rewrite Hl'.
  repeat (split; [assumption |]). exact Ht.
Qed.

(** Every newer record at the head of the lines is counted in the candidate
    watermark of a pass that does not raise. *)
Lemma read_loop_counts self pre rest : forall t latest t' res,
  Forall (newer self) pre ->
  read_loop self (map Json pre ++ rest) t latest = Ok (t', res) ->
  t <= t' /\ forall d, In d pre -> time d <= t'.
Proof.
  intros t latest t' res Hn H. apply read_loop_Ok in H.
  destruct H as (pre0 & rest0 & pre' & Hc & Hn0 & Hs0 & -> & _ & _).
  split; [apply max_time_ge |].
  assert (Hpre : exists more, pre0 = pre ++ more).
  { clear - Hc Hn Hn0 Hs0. revert pre0 Hc Hn0.
    induction pre as [| d pre IH]; intros pre0 Hc Hn0;
      [exists pre0; reflexivity |].
    pose proof (Forall_inv Hn) as Hd. pose proof (Forall_inv_tail Hn) as Hn'.
    unfold newer in Hd.
    destruct pre0 as [| d0 pre0]; simpl in Hc.
    - destruct Hs0 as [-> | (d1 & r & -> & Hd1)]; [discriminate Hc |].
      injection Hc as -> _. lia.
    - injection Hc as -> Hc. inversion Hn0; subst.
      destruct (IH Hn' pre0 Hc) as (more & ->); [assumption |].
      exists more. reflexivity. }
  destruct Hpre as (more & ->).
  intros d Hd. apply max_time_In. apply in_or_app. left. exact Hd.
Qed.

(** C5. In a poll that returns, every record that the loop reads with a
    timestamp strictly greater than the stored watermark counts toward the
    watermark: the watermark after the poll is at least its timestamp,
    whether or not its distance let it into the returned list. *)
Theorem newer_records_advance_watermark net self res self' resp pre rest :
  _do_update net self = (Ok res, self') ->
  fetch_result (fetch_data net self) = Ok resp ->
  content resp = map Json pre ++ rest ->
  Forall (newer self) pre ->
  forall d, In d pre -> time d <= last_time self'.
Proof.
  intros H Hf Hc Hn d Hd. apply _do_update_Ok in H.
  destruct H as (resp0 & t' & latest & Hf0 & _ & Hr & _ & -> & _).
  rewrite Hf in Hf0. injection Hf0 as <-. rewrite Hc in Hr.
  destruct (read_loop_counts _ _ _ _ _ _ _ Hn Hr) as [_ Hall].
  specialize (Hall d Hd).
  destruct (Z.gtb_spec t' (last_time self)); lia.
Qed.

(** Nothing that follows a record that is not newer than the watermark is
    read. *)
Lemma read_loop_cut self d rest1 rest2 pre : forall t latest,
  time d <= last_time self ->
  read_loop self (pre ++ Json d :: rest1) t latest =
  read_loop self (pre ++ Json d :: rest2) t latest.
Proof.
  induction pre as [| [ | | | d0 | ] pre IH]; intros t latest Hd;
    try reflexivity.
  - simpl app. rewrite !read_loop_stale by exact Hd. reflexivity.
  - simpl.
    destruct (time d0 <=? last_time self); [reflexivity |].
    destruct (compute_polar_coords self d0) as [d' | e]; simpl;
      [| reflexivity].
    destruct (getitem (distance d')) as [dist | e]; simpl; [| reflexivity].
    destruct (Float.le dist (radius self)); [| apply IH; exact Hd].
    destruct (int_to_float (time d0)) as [x | e]; simpl;
      [apply IH; exact Hd | reflexivity].
Qed.

(** C10. Once the loop meets a record whose timestamp is less than or equal
    to the stored watermark, the rest of the response is never read: two
    responses that agree up to and including such a record give the same
    pass of the loop, the same returned list and the same coordinator
    afterwards, whatever follows the record, newer timestamps included. *)
Theorem stale_record_ends_poll net1 net2 self s pre d rest1 rest2 :
  time d <= last_time self ->
  fetch_result (fetch_data net1 self) =
    Ok {| status := s; content := pre ++ Json d :: rest1 |} ->
  fetch_result (fetch_data net2 self) =
    Ok {| status := s; content := pre ++ Json d :: rest2 |} ->
  fetch_host_nr (fetch_data net1 self) = fetch_host_nr (fetch_data net2 self) ->
  (forall t latest,
      read_loop self (pre ++ Json d :: rest1) t latest =
      read_loop self (pre ++ Json d :: rest2) t latest) /\
  _do_update net1 self = _do_update net2 self.
Proof.
  intros Hd H1 H2 Hh.
  split; [intros t latest; apply read_loop_cut; exact Hd |].
  unfold _do_update. rewrite H1, H2, Hh. simpl.
  destruct (negb (s =? 200)); [reflexivity |].
  rewrite !read_loop_host.
  rewrite (read_loop_cut self d rest1 rest2 pre) by exact Hd.
  reflexivity.
Qed.

(** *** [fetch_data] *)

Lemma attempt_Ok net try_nr resp :
  attempt net try_nr = Ok resp -> status resp = 200.
Proof.
  unfold attempt. destruct (get net try_nr) as [r | | why | e];
    try discriminate.
  destruct (Z.eqb_spec (status r) 200) as [E | E]; simpl; [| discriminate].
  intros H. injection H as <-. exact E.
Qed.

Lemma attempt_failing net try_nr :
  failing (get net try_nr) -> attempt net try_nr = Raise ClientError.
Proof.
  unfold attempt. intros [-> | (resp & -> & Hs)]; [reflexivity |].
  destruct (Z.eqb_spec (status resp) 200); [contradiction | reflexivity].
Qed.

(** [fetch_data] only returns responses with status 200. *)
Lemma fetch_loop_Ok net try_nr h done resp :
  fetch_result (fetch_loop net try_nr h done) = Ok resp -> status resp = 200.
Proof.
  funelim (fetch_loop net try_nr h done); simpl; intros E;
    try discriminate E.
  - injection E as <-. eapply attempt_Ok; eassumption.
  - match goal with IH : forall _, _ -> status _ = 200 |- _ => apply IH end.
    exact E.
Qed.

(** The last failure of the loop: the counter has reached the maximum. *)
Lemma fetch_loop_give_up net try_nr h done :
  failing (get net try_nr) ->
  MAX_RETRIES <= try_nr + 1 ->
  fetch_loop net try_nr h done =
  {| fetch_result := Raise ClientError; fetch_host_nr := rotate h;
     fetch_effects := done ++ [Get (h + 1)] |}.
Proof.
  intros Hf Hm. apply attempt_failing in Hf.
  simp fetch_loop. rewrite Hf. simpl.
  destruct (Z_ge_lt_dec (try_nr + 1) MAX_RETRIES); [reflexivity | lia].
Qed.

(** A failure below the maximum: sleep, then go round again. *)
Lemma fetch_loop_retry net try_nr h done :
  failing (get net try_nr) ->
  try_nr + 1 < MAX_RETRIES ->
  sleep net (try_nr + 1) = None ->
  fetch_loop net try_nr h done =
  fetch_loop net (try_nr + 1) (rotate h)
    (done ++ [Get (h + 1); Sleep (2 ^ (try_nr + 1))]).
Proof.
  intros Hf Hm Hs. apply attempt_failing in Hf.
  rewrite (fetch_loop_equation_1 net try_nr h done).
  rewrite Hf. simpl.
  destruct (Z_ge_lt_dec (try_nr + 1) MAX_RETRIES); [lia |]. simpl.
  rewrite Hs. reflexivity.
Qed.

Lemma requests_app es1 es2 :
  requests (es1 ++ es2) = requests es1 + requests es2.
Proof.
  unfold requests. rewrite filter_app, length_app. lia.
Qed.

(** The loop makes at most [MAX_RETRIES - try_nr] further requests, and at
    least one. *)
Lemma fetch_loop_requests net try_nr h done :
  requests (fetch_effects (fetch_loop net try_nr h done)) <=
  requests done + Z.max 1 (MAX_RETRIES - try_nr).
Proof.
  funelim (fetch_loop net try_nr h done); simpl;
    try (rewrite requests_app; change (requests _) with 1 at 2; lia).
  match goal with IH : requests _ <= _ |- _ => rewrite requests_app in IH;
    change (requests [Get _; Sleep _]) with 1 in IH end.
  lia.
Qed.

(** When every attempt fails and every sleep runs to its end, the loop
    stops on its own: it raises after [MAX_RETRIES - try_nr] further
    requests, or after one when that is less. *)
Lemma fetch_loop_exhausts net try_nr h done :
  (forall k, try_nr <= k -> failing (get net k)) ->
  (forall k, sleep net k = None) ->
  fetch_result (fetch_loop net try_nr h done) = Raise ClientError /\
  requests (fetch_effects (fetch_loop net try_nr h done)) =
  requests done + Z.max 1 (MAX_RETRIES - try_nr).
Proof.
  funelim (fetch_loop net try_nr h done); intros Hf Hs;
    match goal with
      E : attempt net try_nr = _ |- _ =>
        pose proof (attempt_failing net try_nr (Hf try_nr (Z.le_refl _))) as Ha;
          rewrite E in Ha
    end;
    try discriminate Ha.
  - injection Ha as ->. discriminate.
  - injection Ha as ->. simpl. split; [reflexivity |].
    rewrite requests_app. change (requests [Get _]) with 1. lia.
  - match goal with E : sleep net _ = Some _ |- _ => rewrite Hs in E end.
    discriminate.
  - match goal with
      IH : _ -> _ -> _ /\ _ |- _ =>
        destruct IH as [IH1 IH2];
          [intros k Hk; apply Hf; lia | exact Hs |]
    end.
    split; [exact IH1 |]. rewrite IH2, requests_app.
    change (requests [Get _; Sleep _]) with 1. lia.
Qed.

(** What [_do_update] does when [fetch_data] raises an [Exception]. *)
Lemma _do_update_fetch_raises net self e :
  fetch_result (fetch_data net self) = Raise e ->
  is_Exception e = true ->
  _do_update net self =
  (Raise e, set_host_nr self (rotate (fetch_host_nr (fetch_data net self)))).
Proof.
  intros Hf He. unfold _do_update. rewrite Hf.
  destruct e as [ | why | | | | | | | | | name]; try discriminate He;
    reflexivity.
Qed.

(** C6. In [fetch_data], an attempt that fails (the request raises, or the
    status is not 200) advances [host_nr] by one modulo 3 and increments
    [try_nr]; below [MAX_RETRIES] the loop sleeps [2 ** try_nr] seconds and
    goes round again, at [MAX_RETRIES] the failure is raised.  The loop makes
    at most [max 1 MAX_RETRIES] requests, and exactly that many before it
    raises when every attempt fails.  With [MAX_RETRIES = 3] and three
    failures in a row, the three requests go to three successive hosts,
    separated by sleeps of 2 and 4 seconds, [fetch_data] raises, and
    [_do_update] advances the host once more and raises. *)
Theorem fetch_data_retries :
  (forall net try_nr h done,
      failing (get net try_nr) ->
      (MAX_RETRIES <= try_nr + 1 ->
       fetch_loop net try_nr h done =
       {| fetch_result := Raise ClientError; fetch_host_nr := rotate h;
          fetch_effects := done ++ [Get (h + 1)] |}) /\
      (try_nr + 1 < MAX_RETRIES ->
       sleep net (try_nr + 1) = None ->
       fetch_loop net try_nr h done =
       fetch_loop net (try_nr + 1) (rotate h)
         (done ++ [Get (h + 1); Sleep (2 ^ (try_nr + 1))]))) /\
  (forall net self,
      requests (fetch_effects (fetch_data net self)) <= Z.max 1 MAX_RETRIES) /\
  (forall net self,
      (forall k, 0 <= k -> failing (get net k)) ->
      (forall k, sleep net k = None) ->
      fetch_result (fetch_data net self) = Raise ClientError /\
      requests (fetch_effects (fetch_data net self)) = Z.max 1 MAX_RETRIES) /\
  (forall net self,
      MAX_RETRIES = 3 ->
      failing (get net 0) -> failing (get net 1) -> failing (get net 2) ->
      sleep net 1 = None -> sleep net 2 = None ->
      let h := host_nr self in
      fetch_data net self =
      {| fetch_result := Raise ClientError;
         fetch_host_nr := rotate (rotate (rotate h));
         fetch_effects :=
           [Get (h + 1); Sleep 2;
            Get (rotate h + 1); Sleep 4;
            Get (rotate (rotate h) + 1)] |} /\
      _do_update net self =
      (Raise ClientError, set_host_nr self (rotate (rotate (rotate (rotate h)))))).
Proof.
  split; [| split; [| split]].
  - intros net try_nr h done Hf. split.
    + apply fetch_loop_give_up. exact Hf.
    + apply fetch_loop_retry. exact Hf.
  - intros net self. unfold fetch_data.
    pose proof (fetch_loop_requests net 0 (host_nr self) []) as H.
    change (requests []) with 0 in H. rewrite Z.sub_0_r in H. lia.
  - intros net self Hf Hs. unfold fetch_data.
    destruct (fetch_loop_exhausts net 0 (host_nr self) [] Hf Hs) as [H1 H2].
    split; [exact H1 |]. rewrite H2.
    change (requests []) with 0. rewrite Z.sub_0_r. lia.
  - intros net self HM H0 H1 H2 S1 S2 h.
    assert (Hfetch : fetch_data net self =
      {| fetch_result := Raise ClientError;
         fetch_host_nr := rotate (rotate (rotate h));
         fetch_effects :=
           [Get (h + 1); Sleep 2;
            Get (rotate h + 1); Sleep 4;
            Get (rotate (rotate h) + 1)] |}).
    { unfold fetch_data. fold h.
      rewrite fetch_loop_retry by (assumption || lia).
      rewrite fetch_loop_retry by (assumption || lia).
      rewrite fetch_loop_give_up by (assumption || lia).
      reflexivity. }
    split; [exact Hfetch |].
    rewrite (_do_update_fetch_raises net self ClientError);
      [rewrite Hfetch | rewrite Hfetch |]; reflexivity.
Qed.

(** *** [latest_lightnings] *)

Lemma _do_update_data net self :
  data (snd (_do_update net self)) = data self.
Proof.
  unfold _do_update.
  destruct (timeout_exit (fetch_result (fetch_data net self))) as [resp | e].
  - destruct (negb (status resp =? 200)); [reflexivity |].
    destruct (read_loop _ (content resp) _ []) as [[t' latest] | e];
      [| reflexivity].
    simpl. destruct (t' >? last_time self); reflexivity.
  - destruct (is_Exception e); reflexivity.
Qed.

(** After a refresh the stored data is what the poll returned, or what was
    stored before when the poll raised. *)
Lemma async_refresh_data net self :
  data_or_empty (snd (async_refresh net self)) =
  match fst (async_refresh net self) with
  | Ok d => d
  | Raise _ => data_or_empty self
  end.
Proof.
  unfold async_refresh. pose proof (_do_update_data net self) as H.
  destruct (_do_update net self) as [[d | e] self']; simpl in *.
  - destruct d; reflexivity.
  - unfold data_or_empty. rewrite H. reflexivity.
Qed.

(** Sorted lists: prefixes, filtering, reversal, and transport along a
    relation that preserves the order. *)
Lemma StronglySorted_app_l {A : Type} (R : A -> A -> Prop) l1 l2 :
  StronglySorted R (l1 ++ l2) -> StronglySorted R l1.
Proof.
  induction l1 as [| a l1 IH]; simpl; intros H; [constructor |].
  apply StronglySorted_inv in H. destruct H as [Hs Hf].
  constructor; [apply IH; exact Hs |].
  apply Forall_app in Hf. apply Hf.
Qed.

Lemma StronglySorted_filter {A : Type} (R : A -> A -> Prop) f l :
  StronglySorted R l -> StronglySorted R (filter f l).
Proof.
  induction 1 as [| a l Hs IH Hf]; simpl; [constructor |].
  destruct (f a); [| exact IH].
  constructor; [exact IH |].
  rewrite Forall_forall in *. intros x Hx.
  apply filter_In in Hx. apply Hf. apply Hx.
Qed.

Lemma StronglySorted_snoc {A : Type} (R : A -> A -> Prop) l a :
  StronglySorted R l -> Forall (fun x => R x a) l ->
  StronglySorted R (l ++ [a]).
Proof.
  induction 1 as [| b l Hs IH Hf]; simpl; intros Ha.
  - constructor; constructor.
  - apply Forall_cons_iff in Ha. destruct Ha as [Hb Ha].
    constructor; [apply IH; exact Ha |].
    apply Forall_app. split; [exact Hf |]. constructor; [exact Hb | constructor].
Qed.

Lemma StronglySorted_rev {A : Type} (R : A -> A -> Prop) l :
  StronglySorted R l -> StronglySorted (fun a b => R b a) (rev l).
Proof.
  induction 1 as [| a l Hs IH Hf]; simpl; [constructor |].
  apply StronglySorted_snoc; [exact IH |].
  apply Forall_rev. exact Hf.
Qed.

Lemma StronglySorted_Forall2 {A : Type} (R : A -> A -> Prop)
      (P : A -> A -> Prop) l l' :
  (forall a a' b b', P a a' -> P b b' -> R a b -> R a' b') ->
  Forall2 P l l' -> StronglySorted R l -> StronglySorted R l'.
Proof.
  intros HP. induction 1 as [| a a' l l' Ha Hl IH]; intros Hs;
    [constructor |].
  apply StronglySorted_inv in Hs. destruct Hs as [Hs Hf].
  constructor; [apply IH; exact Hs |].
  clear IH Hs. induction Hl as [| b b' l l' Hb Hl IH]; [constructor |].
  apply Forall_cons_iff in Hf. destruct Hf as [Hab Hf].
  constructor; [exact (HP _ _ _ _ Ha Hb Hab) | apply IH; exact Hf].
Qed.

Lemma compute_polar_coords_time self d d' :
  compute_polar_coords self d = Ok d' -> time d' = time d.
Proof.
  unfold compute_polar_coords. intros H.
  repeat (apply bind_Ok in H; destruct H as (? & _ & H)).
  injection H as <-. reflexivity.
Qed.

Lemma records_app l1 l2 : records (l1 ++ l2) = records l1 ++ records l2.
Proof. unfold records. apply flat_map_app. Qed.

Lemma records_Json pre : records (map Json pre) = pre.
Proof.
  induction pre as [| d pre IH]; [reflexivity |].
  unfold records in *. simpl. rewrite IH. reflexivity.
Qed.

(** What a pass of the loop collects from a response that comes newest
    first is newest first. *)
Lemma read_loop_most_recent_first self lines t' res :
  read_loop self lines (last_time self) [] = Ok (t', res) ->
  most_recent_first (records lines) -> most_recent_first res.
Proof.
  intros H Hs. apply read_loop_Ok in H.
  destruct H as (pre & rest & pre' & -> & _ & _ & _ & H2 & ->).
  simpl. unfold most_recent_first in *.
  rewrite records_app, records_Json in Hs. apply StronglySorted_app_l in Hs.
  apply StronglySorted_filter.
  refine (StronglySorted_Forall2 _ _ pre pre' _ H2 Hs).
  intros a a' b b' Ha Hb Hab.
  apply compute_polar_coords_time in Ha, Hb. lia.
Qed.

(** C9. [latest_lightnings] is a function of the coordinator alone (it
    takes no network and changes no state, so every call yields the same
    events): after any sequence of polls it yields the events returned by the
    most recent poll that did not raise, in the reverse of their stored
    order; when no poll of the sequence succeeded it yields what was stored
    before, reversed.  The reverse of the stored order is most recent first
    when the events are stored oldest first, and oldest first when they are
    stored most recent first.  A poll stores events in the order of the
    response: after a refresh that returned on a response whose records come
    most recent first, [latest_lightnings] yields them oldest first. *)
Theorem latest_lightnings_reversed nets self :
  latest_lightnings (polls nets self) =
  rev match last_ok (history nets self) with
      | Some d => d
      | None => data_or_empty self
      end /\
  (forall c,
      (oldest_first (data_or_empty c) ->
       most_recent_first (latest_lightnings c)) /\
      (most_recent_first (data_or_empty c) ->
       oldest_first (latest_lightnings c))) /\
  (forall net c resp res,
      fetch_result (fetch_data net c) = Ok resp ->
      most_recent_first (records (content resp)) ->
      fst (async_refresh net c) = Ok res ->
      latest_lightnings (snd (async_refresh net c)) = rev res /\
      most_recent_first res /\ oldest_first (rev res)).
Proof.
  split; [| split].
  - revert self.
    induction nets as [| net nets IH]; intros self; simpl; [reflexivity |].
    rewrite IH.
    destruct (last_ok (history nets (snd (async_refresh net self))));
      [reflexivity |].
    rewrite async_refresh_data.
    destruct (fst (async_refresh net self)); reflexivity.
  - intros c. unfold latest_lightnings, oldest_first, most_recent_first.
    split; intros H; apply StronglySorted_rev in H; exact H.
  - intros net c resp res Hf Hs Hr.
    assert (Hd : latest_lightnings (snd (async_refresh net c)) = rev res).
    { unfold latest_lightnings. rewrite async_refresh_data, Hr. reflexivity. }
    assert (Hm : most_recent_first res).
    { unfold async_refresh in Hr.
      destruct (_do_update net c) as [[res0 | e] c'] eqn:Hu; simpl in Hr;
        [| discriminate Hr].
      injection Hr as ->. apply _do_update_Ok in Hu.
      destruct Hu as (resp' & t' & latest & Hf' & _ & Hl & -> & _).
      rewrite Hf in Hf'. injection Hf' as <-.
      destruct (last_time c =? 0); [constructor |].
      exact (read_loop_most_recent_first _ _ _ _ Hl Hs). }
    split; [exact Hd |]. split; [exact Hm |].
    apply StronglySorted_rev in Hm. exact Hm.
Qed.

(** *** Comparison of floats *)

Lemma SFcompare_swap (x y : float) :
  SFcompare y x = option_map CompOpp (SFcompare x y).
Proof.
  destruct x as [sx | sx | | sx mx ex], y as [sy | sy | | sy my ey];
    try destruct sx; try destruct sy; try reflexivity; simpl;
    rewrite (Z.compare_antisym ex ey);
    destruct (ex ?= ey); simpl;
    rewrite ?Pos.compare_cont_antisym; reflexivity.
Qed.

(** [x > y] on floats is the comparison of [x] with [y] answering
    "greater"; it is false when they are unordered. *)
Lemma gt_compare (x y : float) :
  Float.gt x y = true <-> SFcompare x y = Some Gt.
Proof.
  unfold Float.gt, SFltb. rewrite (SFcompare_swap x y).
  destruct (SFcompare x y) as [[ | | ] |]; simpl; split; intros H;
    try discriminate H; reflexivity.
Qed.

(** *** Conversion of an int to a float *)

(** An int below 2^63, such as a timestamp in nanoseconds, converts to a
    finite float: the rounding of [binary_normalize] cannot push the
    exponent beyond [emax]. *)

Lemma digits2_pos_upper (p : positive) : Z.pos p < 2 ^ Z.pos (digits2_pos p).
Proof.
  induction p as [p IH | p IH |]; simpl digits2_pos;
    rewrite ?Pos2Z.inj_succ, ?Z.pow_succ_r by lia; lia.
Qed.

Lemma digits2_pos_le (p : positive) : forall k,
  0 <= k -> Z.pos p < 2 ^ k -> Z.pos (digits2_pos p) <= k.
Proof.
  induction p as [p IH | p IH |]; intros k Hk H; simpl digits2_pos;
    rewrite ?Pos2Z.inj_succ.
  - destruct (Z.eq_dec k 0) as [-> | Hk0]; [simpl in H; lia |].
    replace k with (Z.succ (k - 1)) in H by lia.
    rewrite Z.pow_succ_r in H by lia.
    specialize (IH (k - 1)). lia.
  - destruct (Z.eq_dec k 0) as [-> | Hk0]; [simpl in H; lia |].
    replace k with (Z.succ (k - 1)) in H by lia.
    rewrite Z.pow_succ_r in H by lia.
    specialize (IH (k - 1)). lia.
  - destruct (Z.eq_dec k 0) as [-> | Hk0]; [simpl in H; lia | lia].
Qed.

Lemma Zdigits2_le (z k : Z) : 0 <= z < 2 ^ k -> 0 <= k -> Zdigits2 z <= k.
Proof.
  intros [H0 H] Hk. destruct z as [| p | p]; simpl; try lia.
  apply digits2_pos_le; assumption.
Qed.

Lemma shr_1_m (s : shr_record) :
  0 <= shr_m s -> 0 <= shr_m (shr_1 s) <= shr_m s.
Proof.
  destruct s as [m r st]. simpl.
  destruct m as [| [p | p |] | p]; simpl; lia.
Qed.

Lemma iter_shr_1_m (p : positive) : forall s,
  0 <= shr_m s -> 0 <= shr_m (iter_pos shr_1 p s) <= shr_m s.
Proof.
  induction p as [p IH | p IH |]; intros s H; simpl.
  - pose proof (shr_1_m s H) as H1.
    pose proof (IH (shr_1 s) (proj1 H1)) as H2.
    pose proof (IH _ (proj1 H2)) as H3. lia.
  - pose proof (IH s H) as H2.
    pose proof (IH _ (proj1 H2)) as H3. lia.
  - apply shr_1_m. exact H.
Qed.

Lemma shr_fexp_bounds m e l :
  0 <= m ->
  let '(mrs, e') := shr_fexp prec emax m e l in
  0 <= shr_m mrs <= m /\ e' = Z.max e (fexp prec emax (Zdigits2 m + e)).
Proof.
  intros Hm. unfold shr_fexp, shr.
  assert (Hr : shr_m (shr_record_of_loc m l) = m).
  { destruct l as [| []]; reflexivity. }
  destruct (fexp prec emax (Zdigits2 m + e) - e) as [| p | p] eqn:E.
  - rewrite Hr. lia.
  - pose proof (iter_shr_1_m p (shr_record_of_loc m l)) as H.
    rewrite Hr in H. split; [apply H; exact Hm | lia].
  - rewrite Hr. lia.
Qed.

Lemma round_nearest_even_le m l : 0 <= m -> 0 <= round_nearest_even m l <= m + 1.
Proof.
  intros H. destruct l as [| []]; simpl; try lia.
  destruct (Z.even m); lia.
Qed.

Lemma binary_round_aux_finite sx mx ex :
  0 <= mx < 2 ^ 120 -> ex <= 0 -> Zdigits2 mx + ex <= 63 ->
  Py.is_inf (binary_round_aux prec emax sx mx ex loc_Exact) = false.
Proof.
  intros Hm He Hd. unfold binary_round_aux.
  pose proof (shr_fexp_bounds mx ex loc_Exact (proj1 Hm)) as H1.
  destruct (shr_fexp prec emax mx ex loc_Exact) as [mrs' e'].
  destruct H1 as [Hm' He'].
  pose proof (round_nearest_even_le (shr_m mrs') (loc_of_shr_record mrs') (proj1 Hm')) as Hr.
  set (m1 := round_nearest_even (shr_m mrs') (loc_of_shr_record mrs')) in *.
  pose proof (shr_fexp_bounds m1 e' loc_Exact (proj1 Hr)) as H2.
  destruct (shr_fexp prec emax m1 e' loc_Exact) as [mrs'' e''].
  destruct H2 as [Hm'' He''].
  assert (Hd1 : Zdigits2 m1 <= 121).
  { apply Zdigits2_le; [| lia]. split; [lia |].
    change (2 ^ 121) with (2 * 2 ^ 120). lia. }
  destruct (shr_m mrs''); try reflexivity.
  assert (Hle : e'' <= emax - prec).
  { unfold fexp, emin, emax, prec in *. lia. }
  apply Z.leb_le in Hle. rewrite Hle. reflexivity.
Qed.

Lemma of_int_finite n : 0 <= n < 2 ^ 63 -> Py.is_inf (of_int n) = false.
Proof.
  intros [H0 H]. unfold of_int, binary_normalize.
  destruct n as [| m | m]; [reflexivity | | lia].
  unfold binary_round, shl_align.
  pose proof (digits2_pos_le m 63 ltac:(lia) H) as Hd.
  pose proof (digits2_pos_upper m) as Hu.
  destruct (fexp prec emax (Z.pos (digits2_pos m) + 0) - 0) as [| d | d] eqn:E.
  - apply binary_round_aux_finite; simpl Zdigits2; lia.
  - apply binary_round_aux_finite; simpl Zdigits2; lia.
  - unfold fexp, emin, emax, prec in E.
    assert (Hiter : Z.pos (Pos.iter xO m d) = Z.pos m * 2 ^ Z.pos d).
    { clear. revert m. induction d using Pos.peano_ind; intros m.
      - simpl. lia.
      - rewrite Pos.iter_succ, Pos2Z.inj_succ, Z.pow_succ_r by lia.
        rewrite Pos2Z.inj_xO, IHd. lia. }
    assert (Hlt : Z.pos (Pos.iter xO m d) < 2 ^ 53).
    { rewrite Hiter.
      replace 53 with (Z.pos (digits2_pos m) + Z.pos d) by lia.
      rewrite Z.pow_add_r by lia.
      apply Z.mul_lt_mono_pos_r; [apply Z.pow_pos_nonneg; lia | exact Hu]. }
    apply binary_round_aux_finite.
    + split; [lia |]. apply Z.lt_trans with (2 ^ 53); [exact Hlt | reflexivity].
    + unfold fexp, emin, emax, prec. lia.
    + pose proof (Zdigits2_le (Z.pos (Pos.iter xO m d)) 53 ltac:(lia) ltac:(lia)).
      unfold fexp, emin, emax, prec. lia.
Qed.

Lemma int_to_float_int64 n :
  0 <= n < 2 ^ 63 -> int_to_float n = Ok (of_int n).
Proof.
  intros H. unfold int_to_float. rewrite (of_int_finite n H). reflexivity.
Qed.

(** C7. [is_inactive] is true exactly when the current time minus the
    stored watermark converted from nanoseconds to seconds (the int
    converted to a float and divided by 1e9) is greater than
    [INACTIVITY_RESET_SECONDS], and false otherwise; the watermark is a
    timestamp in nanoseconds below 2^63. *)
Theorem is_inactive_exceeds now self :
  0 <= last_time self < 2 ^ 63 ->
  let dt := sub now (div (of_int (last_time self)) (of_int 1000000000)) in
  (SFcompare dt INACTIVITY_RESET_SECONDS = Some Gt ->
   is_inactive now self = Ok true) /\
  (SFcompare dt INACTIVITY_RESET_SECONDS <> Some Gt ->
   is_inactive now self = Ok false).
Proof.
  intros Ht dt.
  assert (E : is_inactive now self =
              Ok (Float.gt dt INACTIVITY_RESET_SECONDS)).
  { unfold is_inactive. rewrite (int_to_float_int64 _ Ht). reflexivity. }
  rewrite E.
  pose proof (gt_compare dt INACTIVITY_RESET_SECONDS) as H.
  destruct (Float.gt dt INACTIVITY_RESET_SECONDS); split; intros Hc.
  - reflexivity.
  - exfalso. apply Hc. apply H. reflexivity.
  - apply H in Hc. discriminate Hc.
  - reflexivity.
Qed.

(** *** [compute_polar_coords] at one degree north and one degree east *)

(** [compute_polar_coords] step by step, when no step raises. *)
Lemma compute_polar_coords_steps self ev la lo c s a az :
  lat ev = Some la -> lon ev = Some lo ->
  math_cos (div (mul (latitude self) pi) (of_int 180)) = Ok c ->
  forall dx dy,
  dy = div (mul (sub la (latitude self)) pi) (of_int 180) ->
  dx = mul (div (mul (sub lo (longitude self)) pi) (of_int 180)) c ->
  math_sqrt (add (mul dx dx) (mul dy dy)) = Ok s ->
  math_atan2 dx dy = Ok a ->
  Py.round (div (mul a (of_int 180)) pi) = Ok az ->
  compute_polar_coords self ev =
  Ok (set_polar ev (Py.round1 (mul s (of_int 6371))) az).
Proof.
  intros Ela Elo Hc dx dy -> -> Hs Ha Hz.
  unfold compute_polar_coords. rewrite Ela, Elo. unfold getitem, bind at 1 2.
  rewrite Hc. unfold bind at 1. rewrite Hs. unfold bind at 1.
  rewrite Ha. unfold bind at 1. rewrite Hz. reflexivity.
Qed.

Lemma set_polar_annotated ev dist az :
  annotated_with ev (set_polar ev dist az) dist az.
Proof. repeat split. Qed.

(** C8. For an observer at latitude 0 and longitude 0, on a C library
    whose [cos(0)] is 1 and whose [atan2(y, 0)] is the float nearest to pi/2
    for [y > 0] (as Annex F of the C standard requires),
    [compute_polar_coords] annotates an event at (lat = 1, lon = 0) with
    azimuth 0 and distance 111.2, and an event at (lat = 0, lon = 1) with
    azimuth 90 and distance 111.2: the event it leaves holds these under
    its distance and azimuth keys and is otherwise unchanged; 111.2 is
    positive and lies between 111 and 112. *)
Theorem polar_coords_north_and_east self ev :
  libm_cos zero = one ->
  (forall y, Float.gt y zero = true -> libm_atan2 y zero = half_pi) ->
  latitude self = zero -> longitude self = zero ->
  (lat ev = Some one -> lon ev = Some zero ->
   exists ev',
     compute_polar_coords self ev = Ok ev' /\
     distance ev' = Some f111_2 /\ azimuth ev' = Some 0 /\
     annotated_with ev ev' f111_2 0) /\
  (lat ev = Some zero -> lon ev = Some one ->
   exists ev',
     compute_polar_coords self ev = Ok ev' /\
     distance ev' = Some f111_2 /\ azimuth ev' = Some 90 /\
     annotated_with ev ev' f111_2 90) /\
  Float.gt f111_2 zero = true /\
  Float.le (of_int 111) f111_2 = true /\ Float.le f111_2 (of_int 112) = true.
Proof.
  intros Hcos Hatan Hlat Hlon.
  (* one degree in radians, 0x1.1df46a2529d39p-6 *)
  pose (deg := S754_finite false 5030569068109113 (-58)).
  assert (Hd : Py.round1 (mul deg (of_int 6371)) = f111_2)
    by (vm_compute; reflexivity).
  assert (Hc : math_cos (div (mul (latitude self) pi) (of_int 180)) = Ok one).
  { rewrite Hlat. unfold math_cos, Py.math_1.
    replace (div (mul zero pi) (of_int 180)) with zero by (vm_compute; reflexivity).
    rewrite Hcos. vm_compute. reflexivity. }
  split; [| split; [| repeat split; vm_compute; reflexivity]].
  - intros Ela Elo.
    assert (H : compute_polar_coords self ev =
                Ok (set_polar ev (Py.round1 (mul deg (of_int 6371))) 0)).
    { apply (compute_polar_coords_steps self ev one zero one deg zero 0
               Ela Elo Hc zero deg);
        rewrite ?Hlat, ?Hlon; try (vm_compute; reflexivity). }
    rewrite Hd in H. exists (set_polar ev f111_2 0).
    split; [exact H |].
    destruct (set_polar_annotated ev f111_2 0) as (E1 & E2 & E3).
    split; [exact E1 |]. split; [exact E2 |].
    apply set_polar_annotated.
  - intros Ela Elo.
    assert (H : compute_polar_coords self ev =
                Ok (set_polar ev (Py.round1 (mul deg (of_int 6371))) 90)).
    { apply (compute_polar_coords_steps self ev zero one one deg half_pi 90
               Ela Elo Hc deg zero);
        rewrite ?Hlat, ?Hlon; try (vm_compute; reflexivity).
      unfold math_atan2, Py.math_2.
      replace (Py.m_atan2 libm_atan2 deg zero) with half_pi;
        [vm_compute; reflexivity |].
      symmetry. unfold Py.m_atan2.
      replace (Py.is_nan zero || Py.is_nan deg) with false by reflexivity.
      replace (Py.is_inf deg) with false by reflexivity.
      replace (Py.is_inf zero || SFeqb deg zero) with false by reflexivity.
      apply Hatan. vm_compute. reflexivity. }
    rewrite Hd in H. exists (set_polar ev f111_2 90).
    split; [exact H |].
    destruct (set_polar_annotated ev f111_2 90) as (E1 & E2 & E3).
    split; [exact E1 |]. split; [exact E2 |].
    apply set_polar_annotated.
Qed.

(** *** The stream 5, 10, 15 against a watermark of 10 *)

(** C1, in the form that holds of the code.  With a stored watermark of 10:
    when the response delivers the timestamps newest first (15, 10, 5), a
    poll that returns treats exactly the event with t = 15 as new (it alone
    is annotated and, if in the radius, returned) and the stored watermark
    is 15 afterwards; when the response delivers them in ascending order
    (5, 10, 15), the loop stops on the first record, the poll returns the
    empty list and the stored watermark stays 10. *)
Theorem newest_first_stream net self resp d5 d10 d15 :
  time d5 = 5 -> time d10 = 10 -> time d15 = 15 ->
  last_time self = 10 ->
  fetch_result (fetch_data net self) = Ok resp ->
  (content resp = [Json d15; Json d10; Json d5] ->
   forall res self',
     _do_update net self = (Ok res, self') ->
     last_time self' = 15 /\
     exists d15',
       compute_polar_coords self d15 = Ok d15' /\
       res = filter (in_radius self) [d15']) /\
  (content resp = [Json d5; Json d10; Json d15] ->
   exists self',
     _do_update net self = (Ok [], self') /\ last_time self' = 10).
Proof.
  intros T5 T10 T15 Hl Hf. split; intros Hc.
  - intros res self' H. apply _do_update_Ok in H.
    destruct H as (resp0 & t' & latest & Hf0 & _ & Hr & -> & -> & _).
    rewrite Hf in Hf0. injection Hf0 as <-. rewrite Hc, Hl in *.
    rewrite read_loop_newer in Hr by (unfold newer; lia).
    bind_inv Hr d15' Hd. bind_inv Hr dist Hdist.
    assert (Hin : in_radius self d15' = Float.le dist (radius self)).
    { unfold in_radius. destruct (distance d15'); [| discriminate Hdist].
      injection Hdist as ->. reflexivity. }
    destruct (Float.le dist (radius self));
      [apply bind_Ok in Hr; destruct Hr as (x & _ & Hr) |];
      rewrite read_loop_stale in Hr by lia; injection Hr as <- <-;
      rewrite T15; (split; [reflexivity |]);
      exists d15'; simpl; rewrite Hin; split; auto.
  - pose proof Hf as Hs. apply fetch_loop_Ok in Hs.
    unfold _do_update. rewrite Hf. simpl. rewrite Hs, Hc. simpl.
    rewrite T5, Hl. simpl.
    eexists. split; [reflexivity | exact Hl].
Qed.

End Properties.

(** ** Further properties of the coordinator *)

Section Further.

Context {libm : Libm} {const : Const}.

Ltac bind_inv H x Hx :=
  apply bind_Ok in H; destruct H as (x & Hx & H).

(** *** The host rotation *)

Lemma rotate_range h : 0 <= rotate h < 3.
Proof. unfold rotate. apply Z.mod_pos_bound. lia. Qed.

Lemma fetch_loop_pool net try_nr h done :
  0 <= h < 3 -> Forall to_pool done ->
  0 <= fetch_host_nr (fetch_loop net try_nr h done) < 3 /\
  Forall to_pool (fetch_effects (fetch_loop net try_nr h done)).
Proof.
  funelim (fetch_loop net try_nr h done); intros Hh Hd; simpl;
    try (split; [first [exact Hh | apply rotate_range] |];
         apply Forall_app; split; [exact Hd |];
         repeat constructor; simpl; lia).
  match goal with IH : _ -> _ -> _ /\ _ |- _ => apply IH end.
  - apply rotate_range.
  - apply Forall_app. split; [exact Hd |]. repeat constructor; simpl; lia.
Qed.

(** X1. The host rotation stays in the pool: when [host_nr] is 0, 1 or 2
    before a poll, every request of the poll goes to data host 1, 2 or 3,
    and [host_nr] is 0, 1 or 2 again after the poll, whatever the network
    did; so it is along every sequence of polls. *)
Theorem host_stays_in_pool :
  (forall net self,
      0 <= host_nr self < 3 ->
      Forall to_pool (fetch_effects (fetch_data net self)) /\
      0 <= host_nr (snd (_do_update net self)) < 3) /\
  (forall nets self,
      0 <= host_nr self < 3 -> 0 <= host_nr (polls nets self) < 3).
Proof.
  assert (Hone : forall net self,
             0 <= host_nr self < 3 ->
             Forall to_pool (fetch_effects (fetch_data net self)) /\
             0 <= host_nr (snd (_do_update net self)) < 3).
  { intros net self Hh.
    destruct (fetch_loop_pool net 0 (host_nr self) [] Hh (Forall_nil _))
      as [Hf He].
    split; [exact He |].
    unfold _do_update. fold (fetch_data net self).
    destruct (timeout_exit (fetch_result (fetch_data net self))) as [resp | e].
    - destruct (negb (status resp =? 200)); [exact Hf |].
      destruct (read_loop _ (content resp) _ []) as [[t' latest] | e];
        [| exact Hf].
      simpl. destruct (t' >? last_time self); exact Hf.
    - destruct (is_Exception e); [apply rotate_range | exact Hf]. }
  split; [exact Hone |].
  induction nets as [| net nets IH]; intros self Hh; simpl; [exact Hh |].
  apply IH. unfold async_refresh.
  pose proof (proj2 (Hone net self Hh)) as H.
  destruct (_do_update net self) as [[d | e] self']; exact H.
Qed.

(** *** What [fetch_data] returns and raises *)

Lemma attempt_Raise net try_nr e :
  get net try_nr <> Throws UpdateFailed ->
  attempt net try_nr = Raise e -> e <> UpdateFailed.
Proof.
  unfold attempt. intros Hg.
  destruct (get net try_nr) as [resp | | why | e0].
  - destruct (negb (status resp =? 200)); intros H; [| discriminate H].
    injection H as <-. discriminate.
  - intros H. injection H as <-. discriminate.
  - intros H. injection H as <-. discriminate.
  - intros H. injection H as <-. intros ->. apply Hg. reflexivity.
Qed.

Lemma fetch_loop_Raise net try_nr h done e :
  (forall k, get net k <> Throws UpdateFailed) ->
  fetch_result (fetch_loop net try_nr h done) = Raise e -> e <> UpdateFailed.
Proof.
  funelim (fetch_loop net try_nr h done); simpl; intros Hg E;
    try discriminate E;
    try (injection E as <-; eapply attempt_Raise; [apply Hg | eassumption]).
  - injection E as <-. discriminate.
  - match goal with IH : forall _, _ -> _ -> _ <> _ |- _ => eapply IH end;
      eassumption.
Qed.

(** After a fetch that returned, [host_nr] names the host that answered:
    the last effect is the request to data host [host_nr + 1]. *)
Lemma fetch_loop_sticky net try_nr h done resp :
  fetch_result (fetch_loop net try_nr h done) = Ok resp ->
  exists es,
    fetch_effects (fetch_loop net try_nr h done) =
    es ++ [Get (fetch_host_nr (fetch_loop net try_nr h done) + 1)].
Proof.
  funelim (fetch_loop net try_nr h done); simpl; intros E;
    try discriminate E.
  - eexists. reflexivity.
  - match goal with IH : forall _, _ -> exists _, _ |- _ => eapply IH end.
    exact E.
Qed.

(** X2. When [fetch_data] returns a response, [host_nr] designates the
    host that answered: the last request of the fetch went to data host
    [host_nr + 1], so the next poll starts with the host that worked; and
    the response has status 200. *)
Theorem fetch_data_keeps_working_host net self resp :
  fetch_result (fetch_data net self) = Ok resp ->
  status resp = 200 /\
  exists es,
    fetch_effects (fetch_data net self) =
    es ++ [Get (fetch_host_nr (fetch_data net self) + 1)].
Proof.
  intros H. split.
  - eapply fetch_loop_Ok. exact H.
  - eapply fetch_loop_sticky. exact H.
Qed.

Lemma compute_polar_coords_Raise self ev e :
  compute_polar_coords self ev = Raise e ->
  e = KeyError \/ e = ValueError \/ e = OverflowError.
Proof.
  unfold compute_polar_coords.
  destruct (lat ev) as [la |]; simpl;
    [| intros H; injection H as <-; auto].
  destruct (lon ev) as [lo |]; simpl;
    [| intros H; injection H as <-; auto].
  unfold math_cos, math_sqrt, math_atan2, Py.math_1, Py.math_2.
  repeat match goal with
         | |- context [if ?b then _ else _] => destruct b; simpl
         | |- context [Py.round ?x] => destruct x as [? | ? | | ? ? ?]; simpl
         end;
    intros H; try discriminate H; injection H as <-; auto.
Qed.

Lemma read_loop_Raise self lines : forall t latest e,
  read_loop self lines t latest = Raise e -> e <> UpdateFailed.
Proof.
  induction lines as [| [ | | | d | ] rest IH]; intros t latest e; simpl;
    intros H; try discriminate H; try (injection H as <-; discriminate).
  destruct (time d <=? last_time self); [discriminate H |].
  destruct (compute_polar_coords self d) as [d' | e'] eqn:Hc; simpl in H.
  - destruct (distance d') as [dist |]; simpl in H;
      [| injection H as <-; discriminate].
    destruct (Float.le dist (radius self)); [| apply IH in H; exact H].
    unfold int_to_float in H.
    destruct (Py.is_inf (of_int (time d))); simpl in H;
      [injection H as <-; discriminate | apply IH in H; exact H].
  - injection H as <-. apply compute_polar_coords_Raise in Hc.
    destruct Hc as [-> | [-> | ->]]; discriminate.
Qed.

(** X3. [_do_update] raises no [UpdateFailed] of its own: the status test
    after the fetch cannot fail, because [fetch_data] only returns responses
    with status 200.  Unless the HTTP client itself raises [UpdateFailed], no
    poll does. *)
Theorem _do_update_raises net self :
  (forall k, get net k <> Throws UpdateFailed) ->
  fst (_do_update net self) <> Raise UpdateFailed.
Proof.
  intros Hg H.
  unfold _do_update in H. fold (fetch_data net self) in H.
  destruct (fetch_result (fetch_data net self)) as [resp | e0] eqn:Hf.
  - pose proof (fetch_loop_Ok _ _ _ _ _ Hf) as Hs. simpl in H.
    rewrite Hs in H. simpl in H.
    destruct (read_loop _ (content resp) _ []) as [[t' latest] | e1] eqn:Hr;
      simpl in H; [discriminate H |].
    injection H as ->. apply read_loop_Raise in Hr. apply Hr. reflexivity.
  - pose proof (fetch_loop_Raise _ _ _ _ _ Hg Hf) as Hne.
    destruct e0 as [ | [ | ] | | | | | | | | | name]; simpl in H;
      try discriminate H.
    apply Hne. reflexivity.
Qed.

(** *** The time spent backing off *)

Lemma slept_app es1 es2 : slept (es1 ++ es2) = slept es1 + slept es2.
Proof.
  unfold slept. induction es1 as [| [h | n] es1 IH]; simpl; lia.
Qed.

Lemma fetch_loop_slept net try_nr h done :
  0 <= try_nr ->
  slept (fetch_effects (fetch_loop net try_nr h done)) <=
  slept done + (2 ^ Z.max (try_nr + 1) MAX_RETRIES - 2 ^ (try_nr + 1)).
Proof.
  funelim (fetch_loop net try_nr h done); intros Hk; simpl;
    pose proof (Z.pow_le_mono_r 2 (try_nr + 1)
                  (Z.max (try_nr + 1) MAX_RETRIES) ltac:(lia) ltac:(lia)) as Hp;
    rewrite ?slept_app; simpl; try lia;
    assert (Hq : 2 * 2 ^ (try_nr + 1) <= 2 ^ MAX_RETRIES)
      by (rewrite <- Z.pow_succ_r by lia; apply Z.pow_le_mono_r; lia);
    rewrite Z.max_r in * by lia.
  - lia.
  - match goal with IH : _ -> slept _ <= _ |- _ =>
      specialize (IH ltac:(lia)); rewrite slept_app in IH; simpl in IH;
        replace (try_nr + 1 + 1) with (Z.succ (try_nr + 1)) in IH by lia;
        rewrite Z.pow_succ_r in IH by lia
    end.
    lia.
Qed.

(** X4. The backoff of one [fetch_data] is bounded: the sleeps add up to at
    most [2 ** MAX_RETRIES - 2] seconds (none at all when [MAX_RETRIES] is 1
    or less), whatever the network does. *)
Theorem fetch_data_backoff_bounded net self :
  slept (fetch_effects (fetch_data net self)) <= 2 ^ Z.max 1 MAX_RETRIES - 2.
Proof.
  unfold fetch_data.
  pose proof (fetch_loop_slept net 0 (host_nr self) [] ltac:(lia)) as H.
  simpl in H. exact H.
Qed.

(** *** Timeout and cancellation *)

(** X5. When the awaited request is abandoned before any attempt has
    failed: if the request timeout expired, [_do_update] raises
    [TimeoutError] and advances the host by one; if the caller cancelled the
    task, the [CancelledError] passes through both [except Exception]
    clauses and the coordinator is left exactly as it was. *)
Theorem first_request_interrupted net self :
  (get net 0 = Interrupted TimedOut ->
   _do_update net self =
   (Raise TimeoutError, set_host_nr self (rotate (host_nr self)))) /\
  (get net 0 = Interrupted Cancelled ->
   _do_update net self = (Raise (CancelledError Cancelled), self)).
Proof.
  split; intros Hg.
  - unfold _do_update, fetch_data. simp fetch_loop.
    unfold attempt. rewrite Hg. simpl. reflexivity.
  - unfold _do_update, fetch_data. simp fetch_loop.
    unfold attempt. rewrite Hg. simpl. destruct self; reflexivity.
Qed.

(** *** What a poll returns *)

Lemma compute_polar_coords_annotated self d d' :
  compute_polar_coords self d = Ok d' -> annotated d d'.
Proof.
  unfold compute_polar_coords, annotated. intros H.
  repeat (apply bind_Ok in H; destruct H as (? & _ & H)).
  injection H as <-. eauto.
Qed.

Lemma annotated_time d d' : annotated d d' -> time d' = time d.
Proof. intros (dist & az & ->). reflexivity. Qed.

Lemma Forall2_annotated self pre pre' :
  Forall2 (fun d d' => compute_polar_coords self d = Ok d') pre pre' ->
  Forall2 annotated pre pre'.
Proof.
  induction 1 as [| d d' pre pre' H _ IH]; constructor;
    [eapply compute_polar_coords_annotated; exact H | exact IH].
Qed.

Lemma Forall2_In_r {A B : Type} (R : A -> B -> Prop) l l' y :
  Forall2 R l l' -> In y l' -> exists x, In x l /\ R x y.
Proof.
  induction 1 as [| a b l l' H _ IH]; intros Hin; [destruct Hin |].
  destruct Hin as [<- | Hin].
  - exists a. split; [left; reflexivity | exact H].
  - destruct (IH Hin) as (x & Hx & HR). exists x. split; [right |]; assumption.
Qed.

(** The run of records that a returning poll has read. *)
Lemma _do_update_run net self res self' :
  _do_update net self = (Ok res, self') ->
  exists resp pre rest pre',
    fetch_result (fetch_data net self) = Ok resp /\
    content resp = map Json pre ++ rest /\
    Forall (newer self) pre /\ stops_at self rest /\
    Forall2 annotated pre pre' /\
    res = (if last_time self =? 0 then [] else filter (in_radius self) pre') /\
    last_time self' = max_time pre (last_time self).
Proof.
  intros H. apply _do_update_Ok in H.
  destruct H as (resp & t' & latest & Hf & _ & Hr & -> & -> & _).
  apply read_loop_Ok in Hr.
  destruct Hr as (pre & rest & pre' & Hc & Hn & Hs & -> & H2 & ->).
  exists resp, pre, rest, pre'.
  split; [exact Hf |]. split; [exact Hc |]. split; [exact Hn |].
  split; [exact Hs |]. split; [eapply Forall2_annotated; exact H2 |].
  split; [reflexivity |].
  pose proof (max_time_ge pre (last_time self)).
  destruct (Z.gtb_spec (max_time pre (last_time self)) (last_time self)); lia.
Qed.

(** X6. What a poll that returns has done, in full: the response is a run
    of records newer than the stored watermark followed by the end of the
    stream or by a record that is not newer; the returned list is, in the
    order of the response, every record of the run whose distance is within
    the radius, each with its distance and azimuth set and nothing else
    changed (the empty list when the watermark was unset); and the stored
    watermark becomes the largest of its old value and the timestamps of the
    run. *)
Theorem _do_update_returns net self res self' :
  _do_update net self = (Ok res, self') ->
  exists resp pre rest pre',
    fetch_result (fetch_data net self) = Ok resp /\
    content resp = map Json pre ++ rest /\
    Forall (newer self) pre /\ stops_at self rest /\
    Forall2 annotated pre pre' /\
    res = (if last_time self =? 0 then [] else filter (in_radius self) pre') /\
    last_time self' = max_time pre (last_time self).
Proof.
  intros H. apply _do_update_Ok in H.
  destruct H as (resp & t' & latest & Hf & _ & Hr & -> & -> & _).
  apply read_loop_Ok in Hr.
  destruct Hr as (pre & rest & pre' & Hc & Hn & Hs & -> & H2 & ->).
  exists resp, pre, rest, pre'.
  split; [exact Hf |]. split; [exact Hc |]. split; [exact Hn |].
  split; [exact Hs |]. split; [eapply Forall2_annotated; exact H2 |].
  split; [reflexivity |].
  pose proof (max_time_ge pre (last_time self)).
  destruct (Z.gtb_spec (max_time pre (last_time self)) (last_time self)); lia.
Qed.

(** X7. Every event that a poll returns has a timestamp strictly greater
    than the watermark stored before the poll and at most the watermark
    stored after it; so a poll that returns at least one event has strictly
    advanced the watermark. *)
Theorem returned_between_watermarks net self res self' :
  _do_update net self = (Ok res, self') ->
  Forall (fun d => last_time self < time d <= last_time self') res /\
  (res <> [] -> last_time self < last_time self').
Proof.
  intros H. apply _do_update_run in H.
  destruct H as (resp & pre & rest & pre' & _ & _ & Hn & _ & H2 & -> & ->).
  assert (HF : Forall (fun d => last_time self < time d <=
                                max_time pre (last_time self))
                 (if last_time self =? 0 then []
                  else filter (in_radius self) pre')).
  { destruct (last_time self =? 0); [constructor |].
    apply Forall_forall. intros d' Hd'. apply filter_In in Hd'.
    destruct Hd' as [Hd' _].
    destruct (Forall2_In_r _ _ _ _ H2 Hd') as (d & Hd & Ha).
    rewrite (annotated_time _ _ Ha). split.
    - rewrite Forall_forall in Hn. apply Hn. exact Hd.
    - apply max_time_In. exact Hd. }
  split; [exact HF |].
  destruct (if last_time self =? 0 then [] else filter (in_radius self) pre')
    as [| d ds]; [intros Hne; contradiction |].
  intros _. inversion HF; subst. lia.
Qed.

(** X8. Polling the same response again delivers nothing twice: after a
    poll that returned, a second poll that fetches the same response returns
    the empty list and leaves the stored watermark where it is. *)
Theorem same_response_again net1 net2 self res self1 resp :
  _do_update net1 self = (Ok res, self1) ->
  fetch_result (fetch_data net1 self) = Ok resp ->
  fetch_result (fetch_data net2 self1) = Ok resp ->
  exists self2,
    _do_update net2 self1 = (Ok [], self2) /\
    last_time self2 = last_time self1.
Proof.
  intros H Hf1 Hf2.
  pose proof (fetch_loop_Ok _ _ _ _ _ Hf2) as Hs.
  apply _do_update_run in H.
  destruct H as (resp0 & pre & rest & pre' & Hf0 & Hc & Hn & Hst & _ & _ & Hl).
  rewrite Hf1 in Hf0. injection Hf0 as <-.
  assert (Hr : forall h, read_loop (set_host_nr self1 h) (content resp)
                           (last_time self1) [] = Ok (last_time self1, [])).
  { intros h. rewrite read_loop_host, Hc.
    pose proof (max_time_ge pre (last_time self)) as Hge.
    destruct pre as [| d pre].
    - destruct Hst as [-> | (d & rest' & -> & Hd)]; [reflexivity |].
      simpl app. apply read_loop_stale. lia.
    - simpl map. simpl app. apply read_loop_stale. rewrite Hl.
      apply max_time_In. left. reflexivity. }
  unfold _do_update. fold (fetch_data net2 self1). rewrite Hf2. simpl.
  rewrite Hs. simpl.
  change (last_time self1) with
    (last_time (set_host_nr self1 (fetch_host_nr (fetch_data net2 self1)))) at 2.
  rewrite Hr. simpl. rewrite Z.gtb_ltb, Z.ltb_irrefl.
  eexists. split; [destruct (last_time self1 =? 0); reflexivity | reflexivity].
Qed.

(** *** A line that cannot be read *)

Lemma read_loop_broken self pre bad rest : forall t latest,
  Forall (newer self) pre -> broken bad ->
  exists e, read_loop self (map Json pre ++ bad :: rest) t latest = Raise e.
Proof.
  induction pre as [| d pre IH]; intros t latest Hn Hb.
  - destruct Hb as [-> | [-> | [-> | ->]]]; simpl; eauto.
  - simpl map. simpl app.
    rewrite read_loop_newer by exact (Forall_inv Hn).
    destruct (compute_polar_coords self d) as [d' | e]; simpl; [| eauto].
    destruct (getitem (distance d')) as [dist | e]; simpl; [| eauto].
    destruct (Float.le dist (radius self));
      [destruct (int_to_float (time d)) as [x | e]; simpl; [| eauto] |];
      apply IH; [exact (Forall_inv_tail Hn) | exact Hb
                | exact (Forall_inv_tail Hn) | exact Hb].
Qed.

(** X9. A line that cannot be read (the read fails, the line is not JSON,
    it has no ["time"], or its ["time"] is not a number) makes the whole
    poll raise when everything before it is newer than the watermark: the
    events read before it are not returned, and the coordinator is left
    with its watermark and its data untouched (only [host_nr] is as the
    fetch left it). *)
Theorem broken_line_fails_poll net self resp pre bad rest :
  fetch_result (fetch_data net self) = Ok resp ->
  content resp = map Json pre ++ bad :: rest ->
  Forall (newer self) pre -> broken bad ->
  exists e,
    _do_update net self =
    (Raise e, set_host_nr self (fetch_host_nr (fetch_data net self))).
Proof.
  intros Hf Hc Hn Hb.
  pose proof (fetch_loop_Ok _ _ _ _ _ Hf) as Hs.
  destruct (read_loop_broken self pre bad rest (last_time self) [] Hn Hb)
    as (e & He).
  exists e. unfold _do_update. fold (fetch_data net self).
  rewrite Hf. simpl. rewrite Hs. simpl.
  rewrite read_loop_host, Hc.
  change (last_time (set_host_nr self (fetch_host_nr (fetch_data net self))))
    with (last_time self).
  rewrite He. reflexivity.
Qed.

(** *** [compute_polar_coords] *)

(** X10. [compute_polar_coords] raises [KeyError] exactly when the event
    lacks its ["lat"] or its ["lon"] key. *)
Theorem compute_polar_coords_KeyError self ev :
  compute_polar_coords self ev = Raise KeyError <->
  lat ev = None \/ lon ev = None.
Proof.
  split.
  - unfold compute_polar_coords.
    destruct (lat ev) as [la |]; [| intros _; left; reflexivity].
    destruct (lon ev) as [lo |]; [| intros _; right; reflexivity].
    simpl. unfold math_cos, math_sqrt, math_atan2, Py.math_1, Py.math_2.
    repeat match goal with
           | |- context [if ?b then _ else _] => destruct b; simpl
           | |- context [Py.round ?x] => destruct x as [? | ? | | ? ? ?]; simpl
           end;
      intros H; discriminate H.
  - unfold compute_polar_coords. intros [H | H].
    + rewrite H. reflexivity.
    + rewrite H. destruct (lat ev); reflexivity.
Qed.

Lemma sub_diag (x : float) : is_finite x = true -> sub x x = zero.
Proof.
  destruct x as [[ | ] | s | | s m e]; intros H; try discriminate H;
    try reflexivity.
  cbv [sub SFsub]. rewrite Z.sub_diag. reflexivity.
Qed.

(** X11. A strike exactly at the observer (same latitude and longitude,
    both finite, the cosine of the latitude finite) is annotated with
    distance 0.0 and azimuth 0: the event [compute_polar_coords] leaves
    holds these under its distance and azimuth keys and is otherwise
    unchanged. *)
Theorem strike_at_observer self ev c :
  is_finite (latitude self) = true -> is_finite (longitude self) = true ->
  lat ev = Some (latitude self) -> lon ev = Some (longitude self) ->
  math_cos (div (mul (latitude self) pi) (of_int 180)) = Ok c ->
  is_finite c = true ->
  exists ev',
    compute_polar_coords self ev = Ok ev' /\
    distance ev' = Some zero /\ azimuth ev' = Some 0 /\
    annotated_with ev ev' zero 0.
Proof.
  intros Hla Hlo Ela Elo Hc Hfin.
  exists (set_polar ev zero 0).
  destruct (set_polar_annotated ev zero 0) as (E1 & E2 & E3).
  split; [| split; [exact E1 | split; [exact E2 | apply set_polar_annotated]]].
  clear E1 E2 E3.
  assert (Hdx : exists s,
             mul (div (mul (sub (longitude self) (longitude self)) pi)
                    (of_int 180)) c = S754_zero s).
  { rewrite (sub_diag _ Hlo).
    destruct c as [sc | sc | | sc mc ec]; try discriminate Hfin.
    - exists sc. reflexivity.
    - exists sc. reflexivity. }
  destruct Hdx as (s & Hdx).
  replace zero with (Py.round1 (mul zero (of_int 6371))) at 1
    by (vm_compute; reflexivity).
  apply (compute_polar_coords_steps self ev (latitude self) (longitude self)
           c zero (S754_zero s) 0 Ela Elo Hc (S754_zero s) zero).
  - rewrite (sub_diag _ Hla). vm_compute. reflexivity.
  - symmetry. exact Hdx.
  - destruct s; vm_compute; reflexivity.
  - destruct s; vm_compute; reflexivity.
  - destruct s; vm_compute; reflexivity.
Qed.

(** The sign of a rounded result is the sign that went into the rounding. *)
Lemma signbit_binary_round_aux m e l :
  Py.signbit (binary_round_aux prec emax false m e l) = false.
Proof.
  unfold binary_round_aux.
  destruct (shr_fexp prec emax m e l) as [mrs' e'].
  destruct (shr_fexp prec emax _ e' loc_Exact) as [mrs'' e''].
  destruct (shr_m mrs''); try reflexivity.
  destruct (e'' <=? emax - prec); reflexivity.
Qed.

Lemma signbit_square (x : float) : Py.signbit (mul x x) = false.
Proof.
  destruct x as [[ | ] | [ | ] | | [ | ] m e]; try reflexivity;
    apply signbit_binary_round_aux.
Qed.

Lemma signbit_add (x y : float) :
  Py.signbit x = false -> Py.signbit y = false -> Py.signbit (add x y) = false.
Proof.
  intros Hx Hy.
  destruct x as [sx | sx | | sx mx ex], y as [sy | sy | | sy my ey];
    simpl in Hx, Hy; subst; try reflexivity.
  unfold add, SFadd, cond_Zopp, binary_normalize.
  destruct (shl_align mx ex (Z.min ex ey)) as [m1 e1].
  destruct (shl_align my ey (Z.min ex ey)) as [m2 e2]. simpl.
  unfold binary_round.
  destruct (shl_align _ _ _) as [mz ez]. apply signbit_binary_round_aux.
Qed.

Lemma signbit_sqrt (x : float) :
  Py.signbit x = false -> Py.signbit (Float.sqrt x) = false.
Proof.
  intros Hx. destruct x as [s | s | | s m e]; simpl in Hx; subst;
    try reflexivity.
  unfold Float.sqrt, SFsqrt.
  destruct (SFsqrt_core_binary prec emax (Z.pos m) e) as [[mz ez] lz].
  apply signbit_binary_round_aux.
Qed.

Lemma signbit_mul_6371 (x : float) :
  Py.signbit x = false -> Py.signbit (mul x (of_int 6371)) = false.
Proof.
  change (of_int 6371) with (S754_finite false 7004988580560896 (-40)).
  intros Hx. destruct x as [s | s | | s m e]; simpl in Hx; subst;
    try reflexivity.
  apply signbit_binary_round_aux.
Qed.

Lemma signbit_round1 (x : float) :
  Py.signbit x = false -> Py.signbit (Py.round1 x) = false.
Proof.
  intros Hx. destruct x as [s | s | | s m e]; simpl in Hx; subst;
    try reflexivity.
  unfold Py.round1.
  destruct (nearest_even (10 * m) e) as [| n | n]; try reflexivity.
  unfold div, SFdiv.
  destruct (SFdiv_core_binary prec emax (Z.pos n) 0 10 0) as [[mz ez] lz].
  apply signbit_binary_round_aux.
Qed.

(** X14. The distance that [compute_polar_coords] sets is never negative:
    its sign bit is clear (it is 0.0, positive, infinite or NaN), for every
    event, every observer and every C library. *)
Theorem distance_not_negative self ev ev' :
  compute_polar_coords self ev = Ok ev' ->
  exists dist, distance ev' = Some dist /\ Py.signbit dist = false.
Proof.
  unfold compute_polar_coords. intros H.
  bind_inv H la Hla. bind_inv H lo Hlo. bind_inv H c Hc.
  bind_inv H s Hs. bind_inv H a Ha. bind_inv H az Haz.
  injection H as <-. eexists. split; [reflexivity |].
  apply signbit_round1, signbit_mul_6371.
  unfold math_sqrt, Py.math_1 in Hs.
  repeat match type of Hs with
         | (if ?b then _ else _) = _ => destruct b; try discriminate Hs
         end.
  injection Hs as <-.
  apply signbit_sqrt, signbit_add; apply signbit_square.
Qed.

(** *** A coordinator that has not yet received anything *)

Lemma async_refresh_first net self :
  last_time self = 0 -> data self = None ->
  latest_lightnings (snd (async_refresh net self)) = [].
Proof.
  intros H0 Hd. unfold latest_lightnings.
  rewrite async_refresh_data. unfold async_refresh.
  destruct (_do_update net self) as [[res | e] self'] eqn:H; simpl.
  - apply _do_update_Ok in H.
    destruct H as (resp & t' & latest & _ & _ & _ & -> & _).
    rewrite H0. reflexivity.
  - unfold data_or_empty. rewrite Hd. reflexivity.
Qed.

(** X12. After the first refresh of a coordinator whose watermark is unset
    and that stores no data, [latest_lightnings] yields nothing, whatever
    the network delivered: the backlog of the first response is never
    exposed. *)
Theorem first_refresh_exposes_nothing net self :
  last_time self = 0 -> data self = None ->
  latest_lightnings (snd (async_refresh net self)) = [].
Proof. exact (async_refresh_first net self). Qed.

Lemma sub_zero_r (x : float) : sub x zero = x.
Proof. destruct x as [[ | ] | s | | s m e]; reflexivity. Qed.

(** X13. While the watermark is unset, [is_inactive] compares the clock
    itself with the threshold: it is [time.time() > INACTIVITY_RESET_SECONDS],
    so a coordinator that has never received anything is inactive at any
    clock reading beyond the threshold. *)
Theorem is_inactive_unset now self :
  last_time self = 0 ->
  is_inactive now self = Ok (Float.gt now INACTIVITY_RESET_SECONDS).
Proof.
  intros H0. unfold is_inactive. rewrite H0.
  change (int_to_float 0) with (Ok zero). unfold bind.
  replace (div zero (of_int 1000000000)) with zero by (vm_compute; reflexivity).
  rewrite sub_zero_r. reflexivity.
Qed.

(** *** The observer *)

Lemma _do_update_observer net self :
  latitude (snd (_do_update net self)) = latitude self /\
  longitude (snd (_do_update net self)) = longitude self /\
  radius (snd (_do_update net self)) = radius self.
Proof.
  unfold _do_update.
  destruct (timeout_exit (fetch_result (fetch_data net self))) as [resp | e].
  - destruct (negb (status resp =? 200)); [repeat split |].
    destruct (read_loop _ (content resp) _ []) as [[t' latest] | e];
      [| repeat split].
    simpl. destruct (t' >? last_time self); repeat split.
  - destruct (is_Exception e); repeat split.
Qed.

Lemma async_refresh_observer net self :
  latitude (snd (async_refresh net self)) = latitude self /\
  longitude (snd (async_refresh net self)) = longitude self /\
  radius (snd (async_refresh net self)) = radius self.
Proof.
  pose proof (_do_update_observer net self) as H. unfold async_refresh.
  destruct (_do_update net self) as [[d | e] self']; exact H.
Qed.

(** X15. No poll moves the observer: the latitude, the longitude and the
    radius of the coordinator are, after any sequence of polls (returning or
    raising), what they were at the start. *)
Theorem observer_is_fixed nets : forall self,
  latitude (polls nets self) = latitude self /\
  longitude (polls nets self) = longitude self /\
  radius (polls nets self) = radius self.
Proof.
  induction nets as [| net nets IH]; intros self; simpl; [repeat split |].
  destruct (IH (snd (async_refresh net self))) as (-> & -> & ->).
  apply async_refresh_observer.
Qed.

(** *** Setting up and unloading *)

Lemma forallb_ok oks :
  forallb (fun ok : bool => ok) oks = true <-> ~ In false oks.
Proof.
  induction oks as [| [ | ] oks IH]; simpl.
  - split; [intros _ H; exact H | reflexivity].
  - rewrite IH. split; [intros H [E | E]; [discriminate E | auto] | auto].
  - split; [discriminate | intros H; exfalso; apply H; left; reflexivity].
Qed.

Lemma delitem_same reg k : delitem reg k k = None.
Proof. unfold delitem. rewrite String.eqb_refl. reflexivity. Qed.

Lemma delitem_other reg k k' : k' <> k -> delitem reg k k' = reg k'.
Proof.
  intros H. unfold delitem. apply String.eqb_neq in H. rewrite H. reflexivity.
Qed.

Lemma setitem_same reg k v : setitem reg k v k = Some v.
Proof. unfold setitem. rewrite String.eqb_refl. reflexivity. Qed.

Lemma setitem_other reg k v k' : k' <> k -> setitem reg k v k' = reg k'.
Proof.
  intros H. unfold setitem. apply String.eqb_neq in H. rewrite H. reflexivity.
Qed.

(** X16. [async_unload_entry], once the platforms have answered: if one of
    them refuses, it returns [False] and leaves [hass.data] untouched, the
    coordinator stays registered; if all agree and the entry is registered,
    it returns [True] and removes that entry and no other; if all agree and
    the entry is not registered, [pop] raises [KeyError]. *)
Theorem async_unload_entry_cases oks data entry :
  (In false oks ->
   async_unload_entry (Ok oks) data entry = (Ok false, data)) /\
  (~ In false oks ->
   forall reg c,
     data = Some reg -> reg (entry_id entry) = Some c ->
     exists reg',
       async_unload_entry (Ok oks) data entry = (Ok true, Some reg') /\
       reg' (entry_id entry) = None /\
       forall k, k <> entry_id entry -> reg' k = reg k) /\
  (~ In false oks ->
   (data = None \/ exists reg, data = Some reg /\ reg (entry_id entry) = None) ->
   async_unload_entry (Ok oks) data entry = (Raise KeyError, data)).
Proof.
  unfold async_unload_entry.
  destruct (forallb (fun ok : bool => ok) oks) eqn:Hall.
  - pose proof (proj1 (forallb_ok oks) Hall) as Hno.
    split; [intros Hin; contradiction |]. split.
    + intros _ reg c -> Hc. simpl. rewrite Hc.
      exists (delitem reg (entry_id entry)).
      split; [reflexivity |]. split; [apply delitem_same |].
      intros k Hk. apply delitem_other. exact Hk.
    + intros _ [-> | (reg & -> & Hc)]; simpl; [| rewrite Hc]; reflexivity.
  - assert (Hin : In false oks).
    { destruct (in_dec Bool.bool_dec false oks) as [Hin | Hno]; [exact Hin |].
      apply forallb_ok in Hno. rewrite Hno in Hall. discriminate Hall. }
    split; [intros _; reflexivity |].
    split; intros Hno; contradiction.
Qed.

Lemma __init___Returns la lo r c box :
  __init__ la lo r = Returns (c, box) -> c = init la lo r.
Proof.
  unfold __init__.
  destruct (math_cos (div (mul la pi) (of_int 180))) as [x | e]; simpl;
    [| discriminate].
  destruct (truediv _ x) as [d | e]; simpl; [| discriminate].
  intros H. injection H as <- _. reflexivity.
Qed.

(** What [async_setup_entry] has done when it returns. *)
Lemma async_setup_entry_Returns net data entry b data1 :
  async_setup_entry net data entry = (Returns b, data1) ->
  exists la lo r,
    conf_latitude entry = Some la /\ conf_longitude entry = Some lo /\
    conf_radius entry = Some r /\
    b = true /\
    data1 = Some (setitem match data with Some reg => reg | None => empty_registry end
                    (entry_id entry)
                    (snd (async_refresh net (init la lo r)))).
Proof.
  unfold async_setup_entry.
  destruct (conf_latitude entry) as [la |]; simpl; [| discriminate].
  destruct (conf_longitude entry) as [lo |]; simpl; [| discriminate].
  destruct (conf_radius entry) as [r |]; simpl; [| discriminate].
  destruct (__init__ la lo r) as [[c box] | e] eqn:Hi; [| discriminate].
  apply __init___Returns in Hi. subst c.
  destruct (async_refresh net (init la lo r)) as [[d | e] c'] eqn:Hr.
  - intros H. injection H as <- <-. exists la, lo, r.
    rewrite ?Hr. repeat split.
  - destruct (is_Exception e); intros H; [| discriminate H].
    injection H as <- <-. exists la, lo, r.
    rewrite ?Hr. repeat split.
Qed.

(** X17. When [async_setup_entry] returns, it returns [True] and
    [hass.data] holds, under the id of the entry, a coordinator with the
    latitude, longitude and radius of the entry that exposes no events yet
    ([latest_lightnings] yields nothing); the coordinators of the other
    entries are untouched. *)
Theorem async_setup_entry_registers net data entry b data1 :
  async_setup_entry net data entry = (Returns b, data1) ->
  b = true /\
  exists reg1 c,
    data1 = Some reg1 /\ reg1 (entry_id entry) = Some c /\
    conf_latitude entry = Some (latitude c) /\
    conf_longitude entry = Some (longitude c) /\
    conf_radius entry = Some (radius c) /\
    latest_lightnings c = [] /\
    forall k, k <> entry_id entry ->
      reg1 k = match data with Some reg => reg k | None => None end.
Proof.
  intros H. apply async_setup_entry_Returns in H.
  destruct H as (la & lo & r & Hla & Hlo & Hr & -> & ->).
  split; [reflexivity |].
  destruct (async_refresh_observer net (init la lo r)) as (E1 & E2 & E3).
  eexists. eexists. split; [reflexivity |].
  split; [apply setitem_same |].
  rewrite E1, E2, E3.
  split; [exact Hla |]. split; [exact Hlo |]. split; [exact Hr |].
  split; [apply async_refresh_first; reflexivity |].
  intros k Hk. rewrite setitem_other by exact Hk.
  destruct data; reflexivity.
Qed.

(** X18. Setting an entry up and unloading it again: after an
    [async_setup_entry] that returned, an [async_unload_entry] in which
    every platform agrees returns [True].  Afterwards [hass.data[DOMAIN]]
    exists, also when it did not before the setup (the dict that
    [setdefault] created stays); the id of the entry is not bound in it,
    also when it was bound before the setup; every other id is bound as it
    was before the setup.  So the bindings are those from before the setup
    exactly when the id of the entry was not bound then. *)
Theorem setup_then_unload net data entry b data1 oks :
  async_setup_entry net data entry = (Returns b, data1) ->
  ~ In false oks ->
  exists reg2,
    async_unload_entry (Ok oks) data1 entry = (Ok true, Some reg2) /\
    reg2 (entry_id entry) = None /\
    (forall k, k <> entry_id entry ->
       reg2 k = match data with Some reg => reg k | None => None end) /\
    ((forall k, reg2 k = match data with Some reg => reg k | None => None end)
     <-> match data with
         | Some reg => reg (entry_id entry)
         | None => None
         end = None).
Proof.
  intros H Hno. apply async_setup_entry_Returns in H.
  destruct H as (la & lo & r & _ & _ & _ & _ & ->).
  unfold async_unload_entry.
  rewrite (proj2 (forallb_ok oks) Hno). simpl.
  rewrite setitem_same.
  eexists. split; [reflexivity |].
  assert (Hother : forall k, k <> entry_id entry ->
            delitem (setitem match data with
                             | Some reg => reg
                             | None => empty_registry
                             end (entry_id entry)
                       (snd (async_refresh net (init la lo r))))
              (entry_id entry) k
            = match data with Some reg => reg k | None => None end).
  { intros k Hk. rewrite delitem_other, setitem_other by exact Hk.
    destruct data; reflexivity. }
  split; [apply delitem_same |]. split; [exact Hother |].
  split.
  - intros Hall. rewrite <- Hall. apply delitem_same.
  - intros Hnone k. destruct (string_dec k (entry_id entry)) as [-> | Hk].
    + rewrite delitem_same. symmetry. exact Hnone.
    + apply Hother. exact Hk.
Qed.

End Further.

(** ** Closed instances *)

(** The model of [round] against values computed by CPython:
    [round(0.5) = 0], [round(1.5) = 2], [round(2.5) = 2], [round(-1.5) = -2],
    [round(89.99999) = 90]. *)
Example round_agrees :
  map Py.round
    [S754_finite false 4503599627370496 (-53);
     S754_finite false 6755399441055744 (-52);
     S754_finite false 5629499534213120 (-51);
     S754_finite true 6755399441055744 (-52);
     S754_finite false 6333186272302318 (-46)]
  = [Ok 0; Ok 2; Ok 2; Ok (-2); Ok 90].
Proof. vm_compute. reflexivity. Qed.

(** The model of [round(x, 1)] against values computed by CPython:
    [round(0.25, 1) = 0.2], [round(0.35, 1) = 0.3], [round(2.675, 1) = 2.7],
    [round(0.04, 1) = 0.0], [round(0.05, 1) = 0.1], [round(99.95, 1) = 100.0],
    [round(123456.789, 1) = 123456.8],
    [round(1000000000000000.2, 1) = 1000000000000000.2] and
    [round(111.19492664455873, 1) = 111.2]. *)
Example round1_agrees :
  map Py.round1
    [S754_finite false 4503599627370496 (-54);
     S754_finite false 6305039478318694 (-54);
     S754_finite false 6023564501608038 (-51);
     S754_finite false 5764607523034235 (-57);
     S754_finite false 7205759403792794 (-57);
     S754_finite false 7033355980557517 (-46);
     S754_finite false 8483885939586761 (-36);
     S754_finite false 8000000000000002 (-3);
     S754_finite false 7824647346905068 (-46)]
  = [S754_finite false 7205759403792794 (-55);
     S754_finite false 5404319552844595 (-54);
     S754_finite false 6079859496950170 (-51);
     S754_zero false;
     S754_finite false 7205759403792794 (-56);
     S754_finite false 7036874417766400 (-46);
     S754_finite false 8483886695501005 (-36);
     S754_finite false 8000000000000002 (-3);
     f111_2].
Proof. vm_compute. reflexivity. Qed.

Lemma Ex_atan2_half_pi (y : float) :
  Float.gt y zero = true -> Ex.atan2 y zero = half_pi.
Proof.
  destruct y as [s | [ | ] | | [ | ] m e]; simpl; intros H;
    try discriminate H; reflexivity.
Qed.

(** C1 does not hold for the ascending stream: on 5, 10, 15 with a stored
    watermark of 10 the poll returns no event and the stored watermark is 10
    afterwards, not 15. *)
Lemma ascending_stream_counterexample :
  map (fun l => match l with Json d => time d | _ => 0 end) Ex.ascending
    = [5; 10; 15] /\
  last_time (Ex.observer 1 10) = 10 /\
  Ex.do_update (Ex.serves Ex.ascending) (Ex.observer 1 10)
    = (Ok [], Ex.observer 1 10) /\
  last_time (snd (Ex.do_update (Ex.serves Ex.ascending) (Ex.observer 1 10)))
    <> 15.
Proof.
  split; [reflexivity |]. split; [reflexivity |].
  split; [vm_compute; reflexivity |]. vm_compute. discriminate.
Qed.

Lemma newest_first_stream_witness :
  Ex.do_update (Ex.serves Ex.descending) (Ex.observer 1 10)
    = (Ok [Ex.near' 15], Ex.observer 1 15) /\
  (last_time (Ex.observer 1 15) = 15 /\
   exists d15',
     Ex.polar_coords (Ex.observer 1 10) (Ex.near 15)
       = Ok d15' /\
     [Ex.near' 15] = filter (in_radius (Ex.observer 1 10)) [d15']).
Proof.
  assert (H : Ex.do_update (Ex.serves Ex.descending) (Ex.observer 1 10)
              = (Ok [Ex.near' 15], Ex.observer 1 15))
    by (vm_compute; reflexivity).
  split; [exact H |].
  refine (proj1 (@newest_first_stream Ex.libm Ex.const
                   (Ex.serves Ex.descending) (Ex.observer 1 10)
                   (Ex.ok Ex.descending) (Ex.near 5) (Ex.near 10) (Ex.near 15)
                   _ _ _ _ _) _ _ _ H); reflexivity.
Defined.

Lemma first_poll_returns_nothing_witness :
  Ex.observer 1 0 = init zero zero (of_int 50) /\
  last_time (Ex.observer 1 0) = 0 /\
  Ex.do_update (Ex.serves Ex.feed) (Ex.observer 1 0)
    = (Ok [], Ex.observer 1 20) /\
  ([] = @nil lightning /\
   exists resp latest pre rest,
     fetch_result (@fetch_data Ex.const (Ex.serves Ex.feed) (Ex.observer 1 0)) = Ok resp /\
     @read_loop Ex.libm (Ex.observer 1 0) (content resp) 0 []
       = Ok (last_time (Ex.observer 1 20), latest) /\
     content resp = map Json pre ++ rest /\
     Forall (newer (Ex.observer 1 0)) pre /\
     stops_at (Ex.observer 1 0) rest /\
     last_time (Ex.observer 1 20) = max_time pre 0).
Proof.
  split; [reflexivity |]. split; [reflexivity |].
  assert (H : Ex.do_update (Ex.serves Ex.feed) (Ex.observer 1 0)
              = (Ok [], Ex.observer 1 20))
    by (vm_compute; reflexivity).
  split; [exact H |].
  apply (@first_poll_returns_nothing Ex.libm Ex.const
           (Ex.serves Ex.feed) (Ex.observer 1 0)); [reflexivity | exact H].
Defined.

Lemma returned_in_radius_witness :
  Ex.do_update (Ex.serves Ex.feed) (Ex.observer 1 10)
    = (Ok [Ex.near' 15], Ex.observer 1 20) /\
  Forall (fun d => exists dist,
              distance d = Some dist /\
              Float.le dist (radius (Ex.observer 1 10)) = true)
    [Ex.near' 15].
Proof.
  assert (H : Ex.do_update (Ex.serves Ex.feed) (Ex.observer 1 10)
              = (Ok [Ex.near' 15], Ex.observer 1 20))
    by (vm_compute; reflexivity).
  split; [exact H |].
  exact (@returned_in_radius Ex.libm Ex.const _ _ _ _ H).
Defined.

Lemma newer_records_advance_watermark_witness :
  Ex.do_update (Ex.serves Ex.feed) (Ex.observer 1 10)
    = (Ok [Ex.near' 15], Ex.observer 1 20) /\
  Ex.feed = map Json [Ex.far 20; Ex.near 15] ++ [Json (Ex.near 10); Json (Ex.near 5)] /\
  Forall (newer (Ex.observer 1 10)) [Ex.far 20; Ex.near 15] /\
  time (Ex.far 20) <= last_time (Ex.observer 1 20).
Proof.
  assert (H : Ex.do_update (Ex.serves Ex.feed) (Ex.observer 1 10)
              = (Ok [Ex.near' 15], Ex.observer 1 20))
    by (vm_compute; reflexivity).
  assert (Hn : Forall (newer (Ex.observer 1 10)) [Ex.far 20; Ex.near 15])
    by (repeat constructor).
  split; [exact H |]. split; [reflexivity |]. split; [exact Hn |].
  apply (@newer_records_advance_watermark Ex.libm Ex.const
           (Ex.serves Ex.feed) (Ex.observer 1 10) _ _ (Ex.ok Ex.feed)
           [Ex.far 20; Ex.near 15] [Json (Ex.near 10); Json (Ex.near 5)]
           H eq_refl eq_refl Hn).
  left. reflexivity.
Defined.

Lemma fetch_data_retries_witness :
  @fetch_data Ex.const Ex.down (Ex.observer 1 10) =
    {| fetch_result := Raise ClientError;
       fetch_host_nr := 1;
       fetch_effects := [Get 2; Sleep 2; Get 3; Sleep 4; Get 1] |} /\
  Ex.do_update Ex.down (Ex.observer 1 10)
    = (Raise ClientError, Ex.observer 2 10).
Proof.
  apply (proj2 (proj2 (proj2 (@fetch_data_retries Ex.libm Ex.const)))
           Ex.down (Ex.observer 1 10));
    try reflexivity; left; reflexivity.
Defined.

Lemma is_inactive_exceeds_witness :
  0 <= last_time (Ex.observer 1 5000000000000) < 2 ^ 63 /\
  @is_inactive Ex.const (of_int 10000) (Ex.observer 1 5000000000000)
    = Ok true /\
  @is_inactive Ex.const (of_int 8000) (Ex.observer 1 5000000000000)
    = Ok false.
Proof.
  assert (H : 0 <= last_time (Ex.observer 1 5000000000000) < 2 ^ 63)
    by (change (0 <= 5000000000000 < 2 ^ 63); lia).
  split; [exact H |]. split.
  - apply (proj1 (@is_inactive_exceeds Ex.const (of_int 10000) _ H)).
    vm_compute. reflexivity.
  - apply (proj2 (@is_inactive_exceeds Ex.const (of_int 8000) _ H)).
    vm_compute. discriminate.
Defined.

Lemma polar_coords_north_and_east_witness :
  Ex.cos zero = one /\
  (exists ev',
      Ex.polar_coords (Ex.observer 1 0) (Ex.strike 1 one zero) = Ok ev' /\
      distance ev' = Some f111_2 /\ azimuth ev' = Some 0 /\
      annotated_with (Ex.strike 1 one zero) ev' f111_2 0) /\
  (exists ev',
      Ex.polar_coords (Ex.observer 1 0) (Ex.strike 1 zero one) = Ok ev' /\
      distance ev' = Some f111_2 /\ azimuth ev' = Some 90 /\
      annotated_with (Ex.strike 1 zero one) ev' f111_2 90).
Proof.
  split; [reflexivity |]. split.
  - apply (proj1 (@polar_coords_north_and_east Ex.libm
                    (Ex.observer 1 0) (Ex.strike 1 one zero)
                    eq_refl Ex_atan2_half_pi eq_refl eq_refl));
      reflexivity.
  - apply (proj1 (proj2 (@polar_coords_north_and_east Ex.libm
                    (Ex.observer 1 0) (Ex.strike 1 zero one)
                    eq_refl Ex_atan2_half_pi eq_refl eq_refl)));
      reflexivity.
Defined.

(** C9 does not hold as "most recent first": a poll with a stored watermark
    of 5 on a response that delivers the timestamps 20, 15, 10, 5 stores the
    events of 15 and 10 in that order, and [latest_lightnings] yields them
    as 10, 15, the older one first. *)
Lemma latest_lightnings_counterexample :
  data (snd (@async_refresh Ex.libm Ex.const (Ex.serves Ex.feed)
               (Ex.observer 1 5)))
    = Some [Ex.near' 15; Ex.near' 10] /\
  map time
    (latest_lightnings
       (snd (@async_refresh Ex.libm Ex.const (Ex.serves Ex.feed)
               (Ex.observer 1 5))))
    = [10; 15] /\
  ~ most_recent_first
      (latest_lightnings
         (snd (@async_refresh Ex.libm Ex.const (Ex.serves Ex.feed)
                 (Ex.observer 1 5)))).
Proof.
  split; [vm_compute; reflexivity |]. split; [vm_compute; reflexivity |].
  replace (latest_lightnings
             (snd (@async_refresh Ex.libm Ex.const (Ex.serves Ex.feed)
                     (Ex.observer 1 5))))
    with [Ex.near' 10; Ex.near' 15] by (vm_compute; reflexivity).
  intros H. apply StronglySorted_inv in H. destruct H as [_ H].
  apply Forall_inv in H. apply Z.leb_le in H. vm_compute in H. discriminate H.
Qed.

Lemma latest_lightnings_reversed_witness :
  fetch_result (@fetch_data Ex.const (Ex.serves Ex.feed) (Ex.observer 1 5))
    = Ok (Ex.ok Ex.feed) /\
  most_recent_first (records (content (Ex.ok Ex.feed))) /\
  fst (@async_refresh Ex.libm Ex.const (Ex.serves Ex.feed) (Ex.observer 1 5))
    = Ok [Ex.near' 15; Ex.near' 10] /\
  (latest_lightnings
     (snd (@async_refresh Ex.libm Ex.const (Ex.serves Ex.feed)
             (Ex.observer 1 5)))
     = rev [Ex.near' 15; Ex.near' 10] /\
   most_recent_first [Ex.near' 15; Ex.near' 10] /\
   oldest_first (rev [Ex.near' 15; Ex.near' 10])).
Proof.
  assert (H1 : fetch_result (@fetch_data Ex.const (Ex.serves Ex.feed)
                               (Ex.observer 1 5)) = Ok (Ex.ok Ex.feed))
    by (vm_compute; reflexivity).
  assert (H2 : most_recent_first (records (content (Ex.ok Ex.feed)))).
  { change (records (content (Ex.ok Ex.feed)))
      with [Ex.far 20; Ex.near 15; Ex.near 10; Ex.near 5].
    repeat constructor; apply Z.leb_le; vm_compute; reflexivity. }
  assert (H3 : fst (@async_refresh Ex.libm Ex.const (Ex.serves Ex.feed)
                      (Ex.observer 1 5)) = Ok [Ex.near' 15; Ex.near' 10])
    by (vm_compute; reflexivity).
  split; [exact H1 |]. split; [exact H2 |]. split; [exact H3 |].
  exact (proj2 (proj2 (@latest_lightnings_reversed Ex.libm Ex.const []
                         (Ex.observer 1 5)))
           (Ex.serves Ex.feed) (Ex.observer 1 5) (Ex.ok Ex.feed)
           [Ex.near' 15; Ex.near' 10] H1 H2 H3).
Defined.

Lemma stale_record_ends_poll_witness :
  time (Ex.near 5) <= last_time (Ex.observer 1 10) /\
  Ex.do_update (Ex.serves [Json (Ex.near 5); Json (Ex.near 15)]) (Ex.observer 1 10)
    = Ex.do_update (Ex.serves [Json (Ex.near 5); Json (Ex.far 20)]) (Ex.observer 1 10).
Proof.
  assert (H : time (Ex.near 5) <= last_time (Ex.observer 1 10))
    by (vm_compute; discriminate).
  split; [exact H |].
  apply (proj2 (@stale_record_ends_poll Ex.libm Ex.const
                  (Ex.serves [Json (Ex.near 5); Json (Ex.near 15)])
                  (Ex.serves [Json (Ex.near 5); Json (Ex.far 20)])
                  (Ex.observer 1 10) 200 [] (Ex.near 5)
                  [Json (Ex.near 15)] [Json (Ex.far 20)]
                  H eq_refl eq_refl eq_refl)).
Defined.

(** ** Closed instances of the further properties *)

Lemma host_stays_in_pool_witness :
  0 <= host_nr (Ex.observer 1 10) < 3 /\
  Forall to_pool (fetch_effects (@fetch_data Ex.const Ex.down (Ex.observer 1 10))) /\
  0 <= host_nr (snd (Ex.do_update Ex.down (Ex.observer 1 10))) < 3.
Proof.
  assert (H : 0 <= host_nr (Ex.observer 1 10) < 3) by (simpl; lia).
  split; [exact H |].
  exact (proj1 (@host_stays_in_pool Ex.libm Ex.const) Ex.down (Ex.observer 1 10) H).
Defined.

Lemma fetch_data_keeps_working_host_witness :
  @fetch_data Ex.const (Ex.flaky Ex.feed) (Ex.observer 1 10) =
    {| fetch_result := Ok (Ex.ok Ex.feed); fetch_host_nr := 2;
       fetch_effects := [Get 2; Sleep 2; Get 3] |} /\
  (status (Ex.ok Ex.feed) = 200 /\
   exists es,
     fetch_effects (@fetch_data Ex.const (Ex.flaky Ex.feed) (Ex.observer 1 10)) =
     es ++ [Get (fetch_host_nr
                   (@fetch_data Ex.const (Ex.flaky Ex.feed) (Ex.observer 1 10)) + 1)]).
Proof.
  split; [vm_compute; reflexivity |].
  apply (@fetch_data_keeps_working_host Ex.const). vm_compute. reflexivity.
Defined.

Lemma _do_update_raises_witness :
  (forall k, get Ex.down k <> Throws UpdateFailed) /\
  fst (Ex.do_update Ex.down (Ex.observer 1 10)) <> Raise UpdateFailed.
Proof.
  assert (H : forall k, get Ex.down k <> Throws UpdateFailed)
    by (intros k; discriminate).
  split; [exact H |].
  exact (@_do_update_raises Ex.libm Ex.const Ex.down (Ex.observer 1 10) H).
Defined.

Lemma first_request_interrupted_witness :
  Ex.do_update Ex.times_out (Ex.observer 1 10)
    = (Raise TimeoutError, Ex.observer 2 10) /\
  Ex.do_update Ex.cancelled (Ex.observer 1 10)
    = (Raise (CancelledError Cancelled), Ex.observer 1 10).
Proof.
  split.
  - apply (proj1 (@first_request_interrupted Ex.libm Ex.const
                    Ex.times_out (Ex.observer 1 10))).
    reflexivity.
  - apply (proj2 (@first_request_interrupted Ex.libm Ex.const
                    Ex.cancelled (Ex.observer 1 10))).
    reflexivity.
Defined.

Lemma _do_update_returns_witness :
  Ex.do_update (Ex.serves Ex.feed) (Ex.observer 1 10)
    = (Ok [Ex.near' 15], Ex.observer 1 20) /\
  exists resp pre rest pre',
    fetch_result (@fetch_data Ex.const (Ex.serves Ex.feed) (Ex.observer 1 10))
      = Ok resp /\
    content resp = map Json pre ++ rest /\
    Forall (newer (Ex.observer 1 10)) pre /\
    stops_at (Ex.observer 1 10) rest /\
    Forall2 annotated pre pre' /\
    [Ex.near' 15] =
      (if last_time (Ex.observer 1 10) =? 0 then []
       else filter (in_radius (Ex.observer 1 10)) pre') /\
    last_time (Ex.observer 1 20) = max_time pre (last_time (Ex.observer 1 10)).
Proof.
  assert (H : Ex.do_update (Ex.serves Ex.feed) (Ex.observer 1 10)
              = (Ok [Ex.near' 15], Ex.observer 1 20))
    by (vm_compute; reflexivity).
  split; [exact H |].
  exact (@_do_update_returns Ex.libm Ex.const _ _ _ _ H).
Defined.

Lemma returned_between_watermarks_witness :
  Ex.do_update (Ex.serves Ex.feed) (Ex.observer 1 10)
    = (Ok [Ex.near' 15], Ex.observer 1 20) /\
  Forall (fun d => last_time (Ex.observer 1 10) < time d
                   <= last_time (Ex.observer 1 20)) [Ex.near' 15] /\
  ([Ex.near' 15] <> [] ->
   last_time (Ex.observer 1 10) < last_time (Ex.observer 1 20)).
Proof.
  assert (H : Ex.do_update (Ex.serves Ex.feed) (Ex.observer 1 10)
              = (Ok [Ex.near' 15], Ex.observer 1 20))
    by (vm_compute; reflexivity).
  split; [exact H |].
  exact (@returned_between_watermarks Ex.libm Ex.const _ _ _ _ H).
Defined.

Lemma same_response_again_witness :
  Ex.do_update (Ex.serves Ex.feed) (Ex.observer 1 10)
    = (Ok [Ex.near' 15], Ex.observer 1 20) /\
  exists self2,
    Ex.do_update (Ex.serves Ex.feed) (Ex.observer 1 20) = (Ok [], self2) /\
    last_time self2 = last_time (Ex.observer 1 20).
Proof.
  assert (H : Ex.do_update (Ex.serves Ex.feed) (Ex.observer 1 10)
              = (Ok [Ex.near' 15], Ex.observer 1 20))
    by (vm_compute; reflexivity).
  split; [exact H |].
  apply (@same_response_again Ex.libm Ex.const
           (Ex.serves Ex.feed) (Ex.serves Ex.feed) (Ex.observer 1 10)
           _ _ (Ex.ok Ex.feed) H); reflexivity.
Defined.

Lemma broken_line_fails_poll_witness :
  Ex.torn = map Json [Ex.near 15] ++ Garbage :: [Json (Ex.near 10)] /\
  Forall (newer (Ex.observer 1 10)) [Ex.near 15] /\
  exists e,
    Ex.do_update (Ex.serves Ex.torn) (Ex.observer 1 10) =
    (Raise e,
     set_host_nr (Ex.observer 1 10)
       (fetch_host_nr (@fetch_data Ex.const (Ex.serves Ex.torn) (Ex.observer 1 10)))).
Proof.
  assert (Hn : Forall (newer (Ex.observer 1 10)) [Ex.near 15])
    by (repeat constructor).
  split; [reflexivity |]. split; [exact Hn |].
  apply (@broken_line_fails_poll Ex.libm Ex.const
           (Ex.serves Ex.torn) (Ex.observer 1 10) (Ex.ok Ex.torn)
           [Ex.near 15] Garbage [Json (Ex.near 10)] eq_refl eq_refl Hn).
  right. left. reflexivity.
Defined.

Lemma compute_polar_coords_KeyError_witness :
  lon Ex.no_lon = None /\
  Ex.polar_coords (Ex.observer 1 0) Ex.no_lon = Raise KeyError.
Proof.
  split; [reflexivity |].
  apply (proj2 (@compute_polar_coords_KeyError Ex.libm (Ex.observer 1 0) Ex.no_lon)).
  right. reflexivity.
Defined.

Lemma strike_at_observer_witness :
  exists ev',
    Ex.polar_coords (Ex.observer 1 0) (Ex.strike 1 zero zero) = Ok ev' /\
    distance ev' = Some zero /\ azimuth ev' = Some 0 /\
    annotated_with (Ex.strike 1 zero zero) ev' zero 0.
Proof.
  apply (@strike_at_observer Ex.libm (Ex.observer 1 0) (Ex.strike 1 zero zero) one);
    vm_compute; reflexivity.
Defined.

Lemma first_refresh_exposes_nothing_witness :
  last_time (init zero zero (of_int 50)) = 0 /\
  data (init zero zero (of_int 50)) = None /\
  latest_lightnings
    (snd (@async_refresh Ex.libm Ex.const (Ex.serves Ex.feed)
            (init zero zero (of_int 50)))) = [].
Proof.
  split; [reflexivity |]. split; [reflexivity |].
  apply (@first_refresh_exposes_nothing Ex.libm Ex.const); reflexivity.
Defined.

Lemma is_inactive_unset_witness :
  last_time (Ex.observer 1 0) = 0 /\
  @is_inactive Ex.const (of_int 1700000000) (Ex.observer 1 0) = Ok true.
Proof.
  split; [reflexivity |].
  rewrite (@is_inactive_unset Ex.const (of_int 1700000000) (Ex.observer 1 0) eq_refl).
  vm_compute. reflexivity.
Defined.

Lemma distance_not_negative_witness :
  Ex.polar_coords (Ex.observer 1 0) (Ex.near 15) = Ok (Ex.near' 15) /\
  exists dist, distance (Ex.near' 15) = Some dist /\ Py.signbit dist = false.
Proof.
  assert (H : Ex.polar_coords (Ex.observer 1 0) (Ex.near 15) = Ok (Ex.near' 15))
    by (vm_compute; reflexivity).
  split; [exact H |].
  exact (@distance_not_negative Ex.libm _ _ _ H).
Defined.

Lemma async_unload_entry_cases_witness :
  In false [true; false] /\
  async_unload_entry (Ok [true; false]) None Ex.entry = (Ok false, None).
Proof.
  assert (H : In false [true; false]) by (right; left; reflexivity).
  split; [exact H |].
  exact (proj1 (async_unload_entry_cases [true; false] None Ex.entry) H).
Defined.

Lemma async_setup_entry_registers_witness :
  fst (Ex.setup_entry (Ex.serves Ex.feed) None Ex.entry) = Returns true /\
  exists reg1 c,
    snd (Ex.setup_entry (Ex.serves Ex.feed) None Ex.entry) = Some reg1 /\
    reg1 "home"%string = Some c /\ latest_lightnings c = [].
Proof.
  assert (H : Ex.setup_entry (Ex.serves Ex.feed) None Ex.entry =
              (Returns true, snd (Ex.setup_entry (Ex.serves Ex.feed) None Ex.entry)))
    by (vm_compute; reflexivity).
  split; [rewrite H; reflexivity |].
  destruct (@async_setup_entry_registers Ex.libm Ex.const _ _ _ _ _ H)
    as (_ & reg1 & c & E1 & E2 & _ & _ & _ & E3 & _).
  exists reg1, c. split; [exact E1 |]. split; [exact E2 | exact E3].
Defined.

Lemma setup_then_unload_witness :
  ~ In false [true; true] /\
  exists reg2,
    async_unload_entry (Ok [true; true])
      (snd (Ex.setup_entry (Ex.serves Ex.feed) None Ex.entry)) Ex.entry
      = (Ok true, Some reg2) /\
    reg2 "home"%string = None /\
    forall k, reg2 k = None.
Proof.
  assert (Hno : ~ In false [true; true]).
  { intros [E | [E | []]]; discriminate E. }
  assert (H : Ex.setup_entry (Ex.serves Ex.feed) None Ex.entry =
              (Returns true, snd (Ex.setup_entry (Ex.serves Ex.feed) None Ex.entry)))
    by (vm_compute; reflexivity).
  split; [exact Hno |].
  destruct (@setup_then_unload Ex.libm Ex.const _ _ _ _ _ [true; true] H Hno)
    as (reg2 & E1 & E2 & _ & E4).
  exists reg2. split; [exact E1 |]. split; [exact E2 |].
  exact (proj2 E4 eq_refl).
Defined.
